(** * VersionAnalyzer: sidecar-injector / proxy version skew

    A shallow embedding of
    [galley/pkg/config/analysis/analyzers/injection/injection-version.go]
    and the properties of its [Analyze] method.

    Go strings are byte strings: [string] with its [ascii] bytes.  A Go
    [map[string]string] read with [m[k]] yields the zero value on a missing
    key, which [go_index] writes out.  The two [map[string]struct{}] locals
    of [Analyze] are sets and are modelled as [gset string]. *)

From Stdlib Require Import Ascii.
From stdpp Require Import base option list strings gmap sets fin_sets.

(** ** Data model *)

(** [v1.Container]: the two fields the analyzer reads. *)
Record Container := mkContainer {
  Name : string;
  Image : string
}.

(** [v1.Pod]: [ObjectMeta.Namespace], [ObjectMeta.Labels] and
    [Spec.Containers]. *)
Record Pod := mkPod {
  Namespace : string;
  Labels : gmap string string;
  Containers : list Container
}.

(** The dynamically typed [Message] of a resource.  The analyzer only ever
    asserts the [*v1.Pod] case. *)
Inductive Message :=
  | PodMessage (p : Pod)
  | NamespaceMessage
  | OtherMessage.

(** [resource.Metadata]; [FullName] stands for the rendering
    [FullName.String()], the only use the analyzer makes of it. *)
Record Metadata := mkMetadata {
  FullName : string;
  MetaLabels : gmap string string;
  Annotations : gmap string string
}.

(** [resource.Instance]. *)
Record Instance := mkInstance {
  Meta : Metadata;
  Payload : Message
}.

(** [podVersion]: a resource with its detected proxy version. *)
Record podVersion := mkPodVersion {
  Resource : Instance;
  ProxyVersion : string
}.

(** The message built by [msg.NewIstioProxyVersionMismatch r pv iv]. *)
Record IstioProxyVersionMismatch := NewIstioProxyVersionMismatch {
  mResource : Instance;
  mProxyVersion : string;
  mInjectionVersion : string
}.

(** The snapshot behind [analysis.Context]: the resources of the two input
    collections, in the order in which [ForEach] visits them. *)
Record Context := mkContext {
  K8SCoreV1Namespaces : list Instance;
  K8SCoreV1Pods : list Instance
}.

(** [analysis.Metadata]: what an analyzer declares about itself. *)
Record AnalysisMetadata := mkAnalysisMetadata {
  AnalyzerName : string;
  Description : string;
  Inputs : list string
}.

Global Instance Container_eq_dec : EqDecision Container.
Proof. solve_decision. Defined.
Global Instance Pod_eq_dec : EqDecision Pod.
Proof. solve_decision. Defined.
Global Instance Message_eq_dec : EqDecision Message.
Proof. solve_decision. Defined.
Global Instance Metadata_eq_dec : EqDecision Metadata.
Proof. solve_decision. Defined.
Global Instance Instance_eq_dec : EqDecision Instance.
Proof. solve_decision. Defined.
Global Instance podVersion_eq_dec : EqDecision podVersion.
Proof. solve_decision. Defined.
Global Instance IstioProxyVersionMismatch_eq_dec :
  EqDecision IstioProxyVersionMismatch.
Proof. solve_decision. Defined.

(** ** Go primitives *)

(** [m[k]] on a [map[string]string]. *)
Definition go_index (m : gmap string string) (k : string) : string :=
  default "" (m !! k).

(** [strings.Split(s, ":")]: the substrings between the separators, one
    more than there are separators. *)
Fixpoint Split (s : string) : list string :=
  match s with
  | EmptyString => [EmptyString]
  | String c rest =>
      if decide (c = ":"%char) then EmptyString :: Split rest
      else match Split rest with
           | [] => [String c EmptyString]
           | part :: parts => String c part :: parts
           end
  end.

(** [strings.Count(s, ":")]. *)
Fixpoint Count (s : string) : nat :=
  match s with
  | EmptyString => 0
  | String c rest => (if decide (c = ":"%char) then 1 else 0) + Count rest
  end.

(** [c.ForEach(col, fn)]: [fn] is called on the resources in turn, until it
    returns [false].  The closure updates captured locals, here the state
    [S]; [None] is a run-time panic inside [fn]. *)
Fixpoint ForEach {S : Type} (col : list Instance)
    (fn : Instance → S → option (S * bool)) (s : S) : option S :=
  match col with
  | [] => Some s
  | r :: col' =>
      match fn r s with
      | None => None
      | Some (s', true) => ForEach col' fn s'
      | Some (s', false) => Some s'
      end
  end.

(** Locals of [Analyze] captured by the pod visitor. *)
Record PodScan := mkPodScan {
  injectorVersions : gset string;
  podVersions : list podVersion
}.

(** [c.Report(collections.K8SCoreV1Pods.Name(), m)]: the sink keeps the
    messages in the order reported. *)
Definition Report (msgs : list IstioProxyVersionMismatch)
    (m : IstioProxyVersionMismatch) : list IstioProxyVersionMismatch :=
  msgs ++ [m].

(** Number of entries of [l] equal to [x]. *)
Definition occurrences {A : Type} `{EqDecision A} (x : A) (l : list A) : nat :=
  length (filter (λ y, y = x) l).

(** ** The analyzer *)

Definition injectorName : string := "sidecar-injector-webhook".
Definition sidecarInjectorName : string := "sidecarInjectorWebhook".
Definition proxyImageAnnotation : string := "sidecar.istio.io/proxyImage".

(** [getContainerNameVersion]. *)
Definition getContainerNameVersion (c : Container) : string :=
  let parts := Split (Image c) in
  if decide (length parts ≠ 2) then "" else default "" (parts !! 1).

(** [tryReturnSidecarInjectorVersion]: the loop returns at the first
    container named [injectorName]. *)
Fixpoint injectorContainerVersion (cs : list Container) : string :=
  match cs with
  | [] => ""
  | c :: cs' =>
      if decide (Name c ≠ injectorName) then injectorContainerVersion cs'
      else getContainerNameVersion c
  end.

Definition tryReturnSidecarInjectorVersion (p : Pod) : string :=
  if decide (go_index (Labels p) "app" ≠ sidecarInjectorName) then ""
  else injectorContainerVersion (Containers p).

(** The container [tryReturnSidecarInjectorVersion] reads: the first one
    named [injectorName]. *)
Definition injectorContainer (p : Pod) : option Container :=
  snd <$> list_find (λ c, Name c = injectorName) (Containers p).

(** Pod [p] is identified as an injector pod, with the parsed, non-empty
    image version [v]. *)
Definition announcesInjector (p : Pod) (v : string) : Prop :=
  Labels p !! "app" = Some sidecarInjectorName
  ∧ ∃ c, injectorContainer p = Some c ∧ getContainerNameVersion c = v
         ∧ v ≠ "".

(** The payload shapes of the two collections. *)
Definition isPod (r : Instance) : Prop :=
  ∃ pod, Payload r = PodMessage pod.

Definition isNamespace (r : Instance) : Prop :=
  Payload r = NamespaceMessage.

(** The declared input shape of [Analyze]. *)
Definition conforming (c : Context) : Prop :=
  Forall isPod (K8SCoreV1Pods c) ∧ Forall isNamespace (K8SCoreV1Namespaces c).

(** The messages that name resource [r]. *)
Definition messagesOf (r : Instance)
    (msgs : list IstioProxyVersionMismatch)
    : list IstioProxyVersionMismatch :=
  filter (λ m, mResource m = r) msgs.

(** The messages that name resource [r] against injector version [iv]. *)
Definition messagesOfPair (r : Instance) (iv : string)
    (msgs : list IstioProxyVersionMismatch)
    : list IstioProxyVersionMismatch :=
  filter (λ m, mResource m = r ∧ mInjectionVersion m = iv) msgs.

(** The entries of the record list for resource [r]. *)
Definition recordsOf (r : Instance) (pvs : list podVersion)
    : list podVersion :=
  filter (λ pv, Resource pv = r) pvs.

(** ** Sample snapshots *)

Module Samples.

Definition proxy (image : string) : Container :=
  mkContainer "istio-proxy" image.

Definition enabled : gmap string string :=
  {[ "istio-injection" := "enabled" ]}.

Definition ns (name : string) (labels : gmap string string) : Instance :=
  mkInstance (mkMetadata name labels ∅) NamespaceMessage.

Definition pod (name namespace : string)
    (labels annotations : gmap string string) (cs : list Container)
    : Instance :=
  mkInstance (mkMetadata (namespace +:+ "/" +:+ name) ∅ annotations)
    (PodMessage (mkPod namespace labels cs)).

(** The pod a sample resource carries. *)
Definition podOf (r : Instance) : Pod :=
  match Payload r with
  | PodMessage p => p
  | _ => mkPod "" ∅ []
  end.

Definition injector (name namespace image : string) : Instance :=
  pod name namespace {[ "app" := "sidecarInjectorWebhook" ]} ∅
    [mkContainer "sidecar-injector-webhook" image].

Definition inj12 : Instance :=
  injector "inj-a" "istio-system" "istio/sidecar_injector:1.2.0".
Definition inj13 : Instance :=
  injector "inj-b" "istio-system" "istio/sidecar_injector:1.3.0".
Definition old : Instance :=
  pod "old" "default" ∅ ∅
    [mkContainer "app" "nginx:1.17"; proxy "istio/proxyv2:1.1.0"].
Definition cur : Instance :=
  pod "cur" "default" ∅ ∅ [proxy "istio/proxyv2:1.2.0"].

(** An injector rollout in progress: two injector versions at once. *)
Definition rollout : Context :=
  mkContext
    [ns "default" enabled; ns "istio-system" ∅]
    [inj12; inj13; old; cur].

(** The same snapshot, visited in the opposite order. *)
Definition rollout_reversed : Context :=
  mkContext (reverse (K8SCoreV1Namespaces rollout))
    (reverse (K8SCoreV1Pods rollout)).

(** Pods that the pod pass leaves out: one in a namespace that opted out,
    one with a pinned proxy image, one whose proxy image has a registry
    port, one whose proxy image has no tag. *)
Definition off : Instance :=
  pod "off" "legacy" ∅ ∅ [proxy "istio/proxyv2:1.0.0"].
Definition pinned : Instance :=
  pod "pinned" "default" ∅
    {[ "sidecar.istio.io/proxyImage" := "custom/proxy:9" ]}
    [proxy "custom/proxy:9"].
Definition ported : Instance :=
  pod "ported" "default" ∅ ∅ [proxy "registry:5000/istio/proxyv2:1.0.0"].
Definition untagged : Instance :=
  pod "untagged" "default" ∅ ∅ [proxy "istio/proxyv2"].

Definition skipped : Context :=
  mkContext
    [ns "default" enabled; ns "legacy" {[ "istio-injection" := "disabled" ]}]
    [inj12; off; pinned; ported; untagged; old].

(** Workloads with no injector in sight. *)
Definition orphaned : Context :=
  mkContext [ns "default" enabled] [old; cur].

(** A pod with two containers named like the proxy. *)
Definition twin : Instance :=
  pod "twin" "default" ∅ ∅
    [proxy "istio/proxyv2:1.0.0"; proxy "istio/proxyv2:1.1.0"].

Definition twins : Context :=
  mkContext [ns "default" enabled] [inj12; twin].

(** A pod whose first container named like the proxy has no tag and whose
    second one has. *)
Definition half_tagged : Instance :=
  pod "half" "default" ∅ ∅
    [proxy "istio/proxyv2"; proxy "istio/proxyv2:1.1.0"].

Definition halves : Context :=
  mkContext [ns "default" enabled] [inj12; half_tagged].

(** An injector pod whose first webhook container has no tag and whose
    second one has. *)
Definition half_webhooks : Pod :=
  mkPod "istio-system" {[ "app" := "sidecarInjectorWebhook" ]}
    [mkContainer "sidecar-injector-webhook" "istio/sidecar_injector";
     mkContainer "sidecar-injector-webhook" "istio/sidecar_injector:1.2.0"].

(** A pod with two containers named like the proxy, at one version. *)
Definition double : Instance :=
  pod "double" "default" ∅ ∅
    [proxy "istio/proxyv2:1.1.0"; proxy "istio/proxyv2:1.1.0"].

Definition doubled : Context :=
  mkContext [ns "default" enabled] [inj12; double].

Definition doubled_scan : PodScan :=
  mkPodScan {[ "1.2.0" ]}
    [mkPodVersion double "1.1.0"; mkPodVersion double "1.1.0"].

Definition doubled_messages : list IstioProxyVersionMismatch :=
  [NewIstioProxyVersionMismatch double "1.1.0" "1.2.0";
   NewIstioProxyVersionMismatch double "1.1.0" "1.2.0"].

Definition halves_scan : PodScan :=
  mkPodScan {[ "1.2.0" ]} [mkPodVersion half_tagged "1.1.0"].

(** An injector pod that itself runs an older proxy, in an enabled
    namespace. *)
Definition meshed_injector : Instance :=
  pod "inj-c" "default" {[ "app" := "sidecarInjectorWebhook" ]} ∅
    [mkContainer "sidecar-injector-webhook" "istio/sidecar_injector:1.3.0";
     proxy "istio/proxyv2:1.2.0"].

Definition meshed : Context :=
  mkContext [ns "default" enabled] [meshed_injector].

(** A pod collection that holds a namespace resource. *)
Definition misfiled : Context :=
  mkContext [ns "default" enabled] [old; ns "default" enabled].

(** An injector pod with a stale second webhook container. *)
Definition two_webhooks : Pod :=
  mkPod "istio-system" {[ "app" := "sidecarInjectorWebhook" ]}
    [mkContainer "metrics" "prom/exporter:0.9";
     mkContainer "sidecar-injector-webhook" "istio/sidecar_injector:1.2.0";
     mkContainer "sidecar-injector-webhook" "istio/sidecar_injector:1.3.0"].

(** A second replica of the injector at 1.2.0. *)
Definition replica : Instance :=
  injector "inj-a2" "istio-system" "istio/sidecar_injector:1.2.0".

(** The rollout before the second injector version and the pod [cur]
    appeared. *)
Definition early : Context :=
  mkContext [ns "default" enabled] [inj12; old].

(** A cluster whose only workload runs the injector's version. *)
Definition settled : Context :=
  mkContext [ns "default" enabled] [inj12; cur].

Definition settled_scan : PodScan :=
  mkPodScan {[ "1.2.0" ]} [mkPodVersion cur "1.2.0"].

(** A resource of the namespace collection that carries a pod and an
    annotation, with the enabling label. *)
Definition posing : Instance :=
  mkInstance
    (mkMetadata "default" enabled {[ "owner" := "mesh-team" ]})
    (PodMessage (mkPod "" ∅ [])).

(** Two contexts that agree on the namespace and pod collections. *)
Definition named (name : string) : list Instance :=
  if decide (name = "k8s/core/v1/namespaces")
  then K8SCoreV1Namespaces rollout
  else if decide (name = "k8s/core/v1/pods") then K8SCoreV1Pods rollout
  else [].

Definition named_more (name : string) : list Instance :=
  if decide (name = "k8s/apps/v1/deployments") then [twin; off]
  else named name.

(** What the analyzer is expected to leave behind on these snapshots. *)
Definition rollout_scan : PodScan :=
  mkPodScan {[ "1.2.0"; "1.3.0" ]}
    [mkPodVersion old "1.1.0"; mkPodVersion cur "1.2.0"].

Definition rollout_messages : list IstioProxyVersionMismatch :=
  [NewIstioProxyVersionMismatch old "1.1.0" "1.3.0";
   NewIstioProxyVersionMismatch cur "1.2.0" "1.3.0";
   NewIstioProxyVersionMismatch old "1.1.0" "1.2.0"].

Definition rollout_reversed_messages : list IstioProxyVersionMismatch :=
  [NewIstioProxyVersionMismatch old "1.1.0" "1.2.0";
   NewIstioProxyVersionMismatch cur "1.2.0" "1.3.0";
   NewIstioProxyVersionMismatch old "1.1.0" "1.3.0"].

Definition skipped_messages : list IstioProxyVersionMismatch :=
  [NewIstioProxyVersionMismatch old "1.1.0" "1.2.0"].

Definition twins_messages : list IstioProxyVersionMismatch :=
  [NewIstioProxyVersionMismatch twin "1.0.0" "1.2.0";
   NewIstioProxyVersionMismatch twin "1.1.0" "1.2.0"].

Definition meshed_scan : PodScan :=
  mkPodScan {[ "1.3.0" ]} [mkPodVersion meshed_injector "1.2.0"].

Definition meshed_messages : list IstioProxyVersionMismatch :=
  [NewIstioProxyVersionMismatch meshed_injector "1.2.0" "1.3.0"].

End Samples.

Section Analyzer.

(** Constants of package [injection] declared outside this file. *)
Variables InjectionLabelName InjectionLabelEnableValue : string.
Variable istioProxyName : string.

(** The order in which a [range] over a Go map yields its keys: some
    enumeration of the key set, not fixed by the language. *)
Variable rangeKeys : gset string → list string.

(** The visitor of the namespace collection. *)
Definition visitNamespace (r : Instance) (injectedNamespaces : gset string)
    : option (gset string * bool) :=
  if decide (go_index (MetaLabels (Meta r)) InjectionLabelName
             = InjectionLabelEnableValue)
  then Some ({[ FullName (Meta r) ]} ∪ injectedNamespaces, true)
  else Some (injectedNamespaces, true).

(** The container loop of the pod visitor. *)
Fixpoint scanContainers (r : Instance) (cs : list Container)
    (pvs : list podVersion) : list podVersion :=
  match cs with
  | [] => pvs
  | container :: cs' =>
      if decide (Name container ≠ istioProxyName)
      then scanContainers r cs' pvs
      else
        let v := getContainerNameVersion container in
        if decide (v = "") then scanContainers r cs' pvs
        else scanContainers r cs' (pvs ++ [mkPodVersion r v])
  end.

(** The visitor of the pod collection; the type assertion of
    [r.Message] to [*v1.Pod] panics on any other payload. *)
Definition visitPod (injectedNamespaces : gset string) (r : Instance)
    (st : PodScan) : option (PodScan * bool) :=
  match Payload r with
  | PodMessage pod =>
      let v := tryReturnSidecarInjectorVersion pod in
      let ivs := if decide (v ≠ "") then {[ v ]} ∪ injectorVersions st
                 else injectorVersions st in
      if decide (Namespace pod ∉ injectedNamespaces)
      then Some (mkPodScan ivs (podVersions st), true)
      else if decide (go_index (Annotations (Meta r)) proxyImageAnnotation
                      ≠ "")
      then Some (mkPodScan ivs (podVersions st), true)
      else Some (mkPodScan ivs
                   (scanContainers r (Containers pod) (podVersions st)),
                 true)
  | _ => None
  end.

(** The inner loop of the final comparison, for one injector version. *)
Fixpoint reportMismatches (iv : string) (pvs : list podVersion)
    (msgs : list IstioProxyVersionMismatch)
    : list IstioProxyVersionMismatch :=
  match pvs with
  | [] => msgs
  | pv :: pvs' =>
      if decide (ProxyVersion pv ≠ iv)
      then reportMismatches iv pvs'
             (Report msgs
                (NewIstioProxyVersionMismatch (Resource pv)
                   (ProxyVersion pv) iv))
      else reportMismatches iv pvs' msgs
  end.

(** The outer loop, over the injector versions in range order. *)
Fixpoint crossJoin (ivs : list string) (pvs : list podVersion)
    (msgs : list IstioProxyVersionMismatch)
    : list IstioProxyVersionMismatch :=
  match ivs with
  | [] => msgs
  | iv :: ivs' => crossJoin ivs' pvs (reportMismatches iv pvs msgs)
  end.

(** The first [ForEach] of [Analyze]: the set [injectedNamespaces]. *)
Definition scanNamespaces (c : Context) : option (gset string) :=
  ForEach (K8SCoreV1Namespaces c) visitNamespace ∅.

(** The second [ForEach]: [injectorVersions] and [podVersions]. *)
Definition scanPods (c : Context) (injectedNamespaces : gset string)
    : option PodScan :=
  ForEach (K8SCoreV1Pods c) (visitPod injectedNamespaces) (mkPodScan ∅ []).

(** [Analyze]: the messages reported to the context, or [None] when the
    call panics. *)
Definition Analyze (c : Context) : option (list IstioProxyVersionMismatch) :=
  injectedNamespaces ← scanNamespaces c;
  st ← scanPods c injectedNamespaces;
  Some (crossJoin (rangeKeys (injectorVersions st)) (podVersions st) []).

(** *** Declarative reading of the three passes *)

(** The namespace carries the enabling label value. *)
Definition injectionEnabled (r : Instance) : Prop :=
  go_index (MetaLabels (Meta r)) InjectionLabelName
  = InjectionLabelEnableValue.

(** The injector version a pod resource announces ([""] for none). *)
Definition podInjectorVersion (r : Instance) : string :=
  match Payload r with
  | PodMessage pod => tryReturnSidecarInjectorVersion pod
  | _ => ""
  end.

(** A container the proxy loop records. *)
Definition proxyParseable (c : Container) : Prop :=
  Name c = istioProxyName ∧ getContainerNameVersion c ≠ "".

(** The records one pod resource adds to [podVersions]. *)
Definition podRecords (injectedNamespaces : gset string) (r : Instance)
    : list podVersion :=
  match Payload r with
  | PodMessage pod =>
      if decide (Namespace pod ∈ injectedNamespaces
                 ∧ go_index (Annotations (Meta r)) proxyImageAnnotation = "")
      then (λ c, mkPodVersion r (getContainerNameVersion c))
             <$> filter proxyParseable (Containers pod)
      else []
  | _ => []
  end.

(** The messages of one injector version. *)
Definition mismatches (pvs : list podVersion) (iv : string)
    : list IstioProxyVersionMismatch :=
  (λ pv, NewIstioProxyVersionMismatch (Resource pv) (ProxyVersion pv) iv)
    <$> filter (λ pv, ProxyVersion pv ≠ iv) pvs.

(** *** The analyzer and its collections *)

(** [collections.K8SCoreV1Namespaces.Name()] and
    [collections.K8SCoreV1Pods.Name()], declared outside this file. *)
Variables K8SCoreV1NamespacesName K8SCoreV1PodsName : string.

(** [Metadata]. *)
Definition VersionAnalyzer_Metadata : AnalysisMetadata :=
  mkAnalysisMetadata "injection.VersionAnalyzer"
    "Checks the version of auto-injection configured with the running proxies on pods"
    [K8SCoreV1NamespacesName; K8SCoreV1PodsName].

(** [Analyze] on a context that holds its collections by name: the two
    [ForEach] calls visit the collections of the names they pass, and
    every [Report] carries the name of the pod collection. *)
Definition AnalyzeNamed (collections : string → list Instance)
    : option (list (string * IstioProxyVersionMismatch)) :=
  match Analyze (mkContext (collections K8SCoreV1NamespacesName)
                   (collections K8SCoreV1PodsName)) with
  | Some msgs => Some ((λ m, (K8SCoreV1PodsName, m)) <$> msgs)
  | None => None
  end.

(** ** Facts about the Go primitives *)

Example Split_plain : Split "proxyv2" = ["proxyv2"].
Proof. reflexivity. Qed.

Example Split_tag : Split "istio/proxyv2:1.3.0" = ["istio/proxyv2"; "1.3.0"].
Proof. reflexivity. Qed.

Example Split_port :
  Split "host:5000/repo:tag" = ["host"; "5000/repo"; "tag"].
Proof. reflexivity. Qed.

Example Split_empty : Split "" = [""].
Proof. reflexivity. Qed.

Example Split_trailing : Split "repo:" = ["repo"; ""].
Proof. reflexivity. Qed.

Lemma Split_length (s : string) : length (Split s) = S (Count s).
Proof.
  induction s as [|c rest IH]; simpl; [done|].
  case_decide; simpl; [by rewrite IH|].
  destruct (Split rest); simpl in *; lia.
Qed.

Lemma getContainerNameVersion_colons (c : Container) :
  Count (Image c) ≠ 1 → getContainerNameVersion c = "".
Proof.
  intros Hn. unfold getContainerNameVersion. cbv zeta.
  rewrite Split_length. case_decide; [done|lia].
Qed.

Lemma go_index_Some (m : gmap string string) (k v : string) :
  m !! k = Some v → go_index m k = v.
Proof. unfold go_index. by intros ->. Qed.

Lemma go_index_nonempty (m : gmap string string) (k v : string) :
  v ≠ "" → go_index m k = v ↔ m !! k = Some v.
Proof.
  unfold go_index. intros Hv. destruct (m !! k) as [w|]; simpl; naive_solver.
Qed.

Lemma filter_all {A : Type} (P : A → Prop) `{∀ x, Decision (P x)}
    (l : list A) :
  (∀ x, x ∈ l → P x) → filter P l = l.
Proof.
  induction l as [|x l IH]; intros HP; [done|].
  rewrite filter_cons_True by (apply HP; left).
  f_equal. apply IH. intros y Hy. apply HP. by right.
Qed.

Lemma filter_none {A : Type} (P : A → Prop) `{∀ x, Decision (P x)}
    (l : list A) :
  (∀ x, x ∈ l → ¬ P x) → filter P l = [].
Proof.
  induction l as [|x l IH]; intros HP; [done|].
  rewrite filter_cons_False by (apply HP; left).
  apply IH. intros y Hy. apply HP. by right.
Qed.

(** ** The namespace pass *)

Lemma ForEach_visitNamespace (nss : list Instance) (acc : gset string) :
  ∃ inj, ForEach nss visitNamespace acc = Some inj
    ∧ ∀ N, N ∈ inj ↔
        N ∈ acc ∨ ∃ r, r ∈ nss ∧ FullName (Meta r) = N ∧ injectionEnabled r.
Proof.
  revert acc. induction nss as [|r nss IH]; intros acc; simpl.
  - exists acc. split; [done|]. intros N. split; [by left|].
    intros [?|(r & Hr & _)]; [done|]. by apply elem_of_nil in Hr.
  - unfold visitNamespace at 1. case_decide as Hen.
    + destruct (IH ({[FullName (Meta r)]} ∪ acc)) as (inj & -> & Hinj).
      exists inj. split; [done|]. intros N. rewrite Hinj.
      rewrite elem_of_union, elem_of_singleton. split.
      * intros [[->|?]|(r' & ? & ? & ?)]; [right|by left|right].
        -- exists r. split_and!; [left|done|done].
        -- exists r'. split_and!; [by right|done|done].
      * intros [?|(r' & [->|?]%elem_of_cons & HN & ?)];
          [by left; right|by left; left|right; by exists r'].
    + destruct (IH acc) as (inj & -> & Hinj).
      exists inj. split; [done|]. intros N. rewrite Hinj. split.
      * intros [?|(r' & ? & ? & ?)]; [by left|right].
        exists r'. split_and!; [by right|done|done].
      * intros [?|(r' & [->|?]%elem_of_cons & HN & ?)];
          [by left|done|right; by exists r'].
Qed.

Lemma scanNamespaces_total (c : Context) : ∃ inj, scanNamespaces c = Some inj.
Proof.
  destruct (ForEach_visitNamespace (K8SCoreV1Namespaces c) ∅) as (inj & ? & _).
  by exists inj.
Qed.

Lemma scanNamespaces_elem (c : Context) (inj : gset string) (N : string) :
  scanNamespaces c = Some inj →
  N ∈ inj ↔
    ∃ r, r ∈ K8SCoreV1Namespaces c ∧ FullName (Meta r) = N
         ∧ injectionEnabled r.
Proof.
  unfold scanNamespaces. intros Hscan.
  destruct (ForEach_visitNamespace (K8SCoreV1Namespaces c) ∅)
    as (inj' & Heq & Hinj).
  rewrite Hscan in Heq. injection Heq as <-. rewrite Hinj.
  split; [intros [H|H]; [by apply not_elem_of_empty in H|done]|by right].
Qed.

(** ** The pod pass *)

Lemma scanContainers_eq (r : Instance) (cs : list Container)
    (pvs : list podVersion) :
  scanContainers r cs pvs
  = pvs ++ ((λ c, mkPodVersion r (getContainerNameVersion c))
              <$> filter proxyParseable cs).
Proof.
  revert pvs. induction cs as [|c cs IH]; intros pvs; simpl.
  - by rewrite app_nil_r.
  - rewrite filter_cons.
    destruct (decide (proxyParseable c)) as [[Hname Hv]|Hnot].
    + rewrite decide_False by (by intros ?).
      rewrite decide_False by done.
      by rewrite IH, <- app_assoc.
    + destruct (decide (Name c ≠ istioProxyName)) as [|Hname%dec_stable];
        [done|].
      destruct (decide (getContainerNameVersion c = "")) as [|Hv]; [done|].
      by destruct Hnot.
Qed.

Lemma visitPod_pod (inj : gset string) (r : Instance) (st : PodScan)
    (pod : Pod) :
  Payload r = PodMessage pod →
  visitPod inj r st
  = Some (mkPodScan
            (if decide (tryReturnSidecarInjectorVersion pod ≠ "")
             then {[ tryReturnSidecarInjectorVersion pod ]}
                  ∪ injectorVersions st
             else injectorVersions st)
            (podVersions st ++ podRecords inj r), true).
Proof.
  intros Hpod. unfold visitPod, podRecords. rewrite Hpod. cbv zeta.
  destruct (decide (Namespace pod ∉ inj)) as [Hns|Hns%dec_stable].
  { destruct (decide (_ ∧ _)) as [[? _]|_]; [done|]. by rewrite app_nil_r. }
  destruct (decide (go_index (Annotations (Meta r)) proxyImageAnnotation
                    ≠ "")) as [Han|Han%dec_stable].
  { destruct (decide (_ ∧ _)) as [[_ ?]|_]; [done|]. by rewrite app_nil_r. }
  destruct (decide (_ ∧ _)) as [_|Hn]; [|by destruct Hn].
  by rewrite scanContainers_eq.
Qed.

Lemma ForEach_visitPod (inj : gset string) (pods : list Instance)
    (st st' : PodScan) :
  ForEach pods (visitPod inj) st = Some st' →
  Forall isPod pods
  ∧ podVersions st' = podVersions st ++ pods ≫= podRecords inj
  ∧ ∀ v, v ∈ injectorVersions st' ↔
      v ∈ injectorVersions st
      ∨ (v ≠ "" ∧ ∃ r, r ∈ pods ∧ podInjectorVersion r = v).
Proof.
  revert st. induction pods as [|r pods IH]; intros st; simpl.
  - intros [= <-]. split_and!; [done|by rewrite app_nil_r|].
    intros v. split; [by left|].
    intros [?|(_ & r & Hr & _)]; [done|]. by apply elem_of_nil in Hr.
  - destruct (Payload r) as [pod| |] eqn:Hpod;
      [|by unfold visitPod; rewrite Hpod..].
    rewrite (visitPod_pod _ _ _ pod Hpod).
    intros (Hall & Hpvs & Hivs)%IH. simpl in *.
    split_and!.
    + constructor; [by exists pod|done].
    + by rewrite Hpvs, <- app_assoc.
    + intros v. rewrite Hivs. unfold podInjectorVersion.
      split.
      * intros [Hv|(Hne & r' & Hr' & Hv)].
        -- case_decide as Hd; [|by left].
           apply elem_of_union in Hv as [->%elem_of_singleton|?]; [|by left].
           right. split; [done|]. exists r. rewrite Hpod. split; [left|done].
        -- right. split; [done|]. exists r'. split; [by right|done].
      * intros [Hv|(Hne & r' & [->|Hr']%elem_of_cons & Hv)].
        -- left. case_decide; [apply elem_of_union; by right|done].
        -- left. rewrite Hpod in Hv. subst v. rewrite decide_True by done.
           apply elem_of_union. left. by apply elem_of_singleton.
        -- right. split; [done|]. by exists r'.
Qed.

Lemma ForEach_visitPod_total (inj : gset string) (pods : list Instance)
    (st : PodScan) :
  Forall isPod pods → ∃ st', ForEach pods (visitPod inj) st = Some st'.
Proof.
  intros Hall. revert st.
  induction Hall as [|r pods [pod Hpod] _ IH]; intros st; simpl.
  - by exists st.
  - rewrite (visitPod_pod _ _ _ pod Hpod). apply IH.
Qed.

Lemma scanPods_Some (c : Context) (inj : gset string) (st : PodScan) :
  scanPods c inj = Some st →
  Forall isPod (K8SCoreV1Pods c)
  ∧ podVersions st = K8SCoreV1Pods c ≫= podRecords inj
  ∧ ∀ v, v ∈ injectorVersions st ↔
      v ≠ "" ∧ ∃ r, r ∈ K8SCoreV1Pods c ∧ podInjectorVersion r = v.
Proof.
  unfold scanPods. intros (Hall & Hpvs & Hivs)%ForEach_visitPod.
  simpl in *. split_and!; [done..|].
  intros v. rewrite Hivs. split; [|by right].
  intros [H|H]; [by apply not_elem_of_empty in H|done].
Qed.

(** ** The final comparison *)

Lemma reportMismatches_eq (iv : string) (pvs : list podVersion)
    (msgs : list IstioProxyVersionMismatch) :
  reportMismatches iv pvs msgs = msgs ++ mismatches pvs iv.
Proof.
  unfold mismatches. revert msgs.
  induction pvs as [|pv pvs IH]; intros msgs; simpl.
  - by rewrite app_nil_r.
  - rewrite filter_cons. case_decide; rewrite IH; [|done].
    unfold Report. by rewrite <- app_assoc.
Qed.

Lemma crossJoin_eq (ivs : list string) (pvs : list podVersion)
    (msgs : list IstioProxyVersionMismatch) :
  crossJoin ivs pvs msgs = msgs ++ ivs ≫= mismatches pvs.
Proof.
  revert msgs. induction ivs as [|iv ivs IH]; intros msgs; simpl.
  - by rewrite app_nil_r.
  - by rewrite IH, reportMismatches_eq, <- app_assoc.
Qed.

Lemma Analyze_Some (c : Context) (msgs : list IstioProxyVersionMismatch) :
  Analyze c = Some msgs ↔
  ∃ inj st, scanNamespaces c = Some inj ∧ scanPods c inj = Some st
    ∧ msgs = rangeKeys (injectorVersions st) ≫= mismatches (podVersions st).
Proof.
  unfold Analyze. split.
  - destruct (scanNamespaces c) as [inj|] eqn:Hinj; simpl; [|done].
    destruct (scanPods c inj) as [st|] eqn:Hst; simpl; [|done].
    intros [= <-]. exists inj, st. split_and!; [done..|].
    by rewrite crossJoin_eq.
  - intros (inj & st & -> & Hst & ->). simpl. rewrite Hst. simpl.
    by rewrite crossJoin_eq.
Qed.

Lemma Analyze_eq (c : Context) (inj : gset string) (st : PodScan)
    (msgs : list IstioProxyVersionMismatch) :
  scanNamespaces c = Some inj → scanPods c inj = Some st →
  Analyze c = Some msgs →
  msgs = rangeKeys (injectorVersions st) ≫= mismatches (podVersions st).
Proof.
  intros Hinj Hst (inj' & st' & Hinj' & Hst' & ->)%Analyze_Some.
  rewrite Hinj in Hinj'. injection Hinj' as <-.
  rewrite Hst in Hst'. by injection Hst' as <-.
Qed.

Lemma Analyze_total (c : Context) :
  Forall isPod (K8SCoreV1Pods c) → ∃ msgs, Analyze c = Some msgs.
Proof.
  intros Hall. destruct (scanNamespaces_total c) as [inj Hinj].
  destruct (ForEach_visitPod_total inj _ (mkPodScan ∅ []) Hall) as [st Hst].
  eexists. apply Analyze_Some. by exists inj, st.
Qed.

(** ** Injector detection *)

Lemma injectorContainerVersion_find (cs : list Container) :
  injectorContainerVersion cs
  = match list_find (λ c, Name c = injectorName) cs with
    | Some (_, c) => getContainerNameVersion c
    | None => ""
    end.
Proof.
  induction cs as [|c cs IH]; simpl; [done|].
  destruct (decide (Name c ≠ injectorName)) as [Hne|Heq%dec_stable].
  - rewrite decide_False by done. rewrite IH.
    by destruct (list_find _ cs) as [[i c']|].
  - by rewrite decide_True.
Qed.

Lemma tryReturnSidecarInjectorVersion_announces (p : Pod) (v : string) :
  announcesInjector p v ↔ tryReturnSidecarInjectorVersion p = v ∧ v ≠ "".
Proof.
  unfold announcesInjector, tryReturnSidecarInjectorVersion, injectorContainer.
  rewrite injectorContainerVersion_find.
  rewrite <- (go_index_nonempty (Labels p) "app" sidecarInjectorName)
    by done.
  destruct (decide (go_index (Labels p) "app" ≠ sidecarInjectorName))
    as [Hne|Heq%dec_stable].
  - split; [by intros [? _]|]. by intros [<- ?].
  - destruct (list_find _ (Containers p)) as [[i c]|]; simpl.
    + split; [by intros (_ & c' & [= <-] & ? & ?)|].
      intros [? ?]. split; [done|]. by exists c.
    + split; [by intros (_ & c' & [=] & _)|]. by intros [<- ?].
Qed.

(** ** Membership in the records and in the messages *)

Lemma elem_of_podRecords (inj : gset string) (r : Instance) (pv : podVersion) :
  pv ∈ podRecords inj r ↔
  Resource pv = r ∧ ProxyVersion pv ≠ ""
  ∧ go_index (Annotations (Meta r)) proxyImageAnnotation = ""
  ∧ ∃ pod c, Payload r = PodMessage pod ∧ Namespace pod ∈ inj
      ∧ c ∈ Containers pod ∧ Name c = istioProxyName
      ∧ getContainerNameVersion c = ProxyVersion pv.
Proof.
  unfold podRecords. destruct (Payload r) as [pod| |] eqn:Hpod.
  - case_decide as Hd.
    + rewrite list_elem_of_fmap. setoid_rewrite list_elem_of_filter.
      unfold proxyParseable. split.
      * intros (c & -> & (Hname & Hv) & Hc). simpl.
        destruct Hd. split_and!; [done..|]. by exists pod, c.
      * intros (<- & Hne & _ & pod' & c & [= <-] & _ & Hc & Hname & Hv).
        exists c. split; [destruct pv; simpl in *; by subst|].
        split; [|done]. split; [done|]. by rewrite Hv.
    + split; [by intros ?%elem_of_nil|].
      intros (_ & _ & Han & pod' & c & [= <-] & Hns & _). by destruct Hd.
  - split; [by intros ?%elem_of_nil|]. by intros (_ & _ & _ & ? & ? & [=] & _).
  - split; [by intros ?%elem_of_nil|]. by intros (_ & _ & _ & ? & ? & [=] & _).
Qed.

Lemma elem_of_mismatches (pvs : list podVersion) (iv : string)
    (m : IstioProxyVersionMismatch) :
  m ∈ mismatches pvs iv ↔
  mInjectionVersion m = iv
  ∧ mkPodVersion (mResource m) (mProxyVersion m) ∈ pvs
  ∧ mProxyVersion m ≠ iv.
Proof.
  unfold mismatches. rewrite list_elem_of_fmap.
  setoid_rewrite list_elem_of_filter. split.
  - intros ([r pv] & -> & Hne & Hin). by simpl in *.
  - intros (<- & Hin & Hne).
    exists (mkPodVersion (mResource m) (mProxyVersion m)).
    split; [by destruct m|done].
Qed.

Lemma elem_of_crossJoin (ivs : list string) (pvs : list podVersion)
    (m : IstioProxyVersionMismatch) :
  m ∈ ivs ≫= mismatches pvs ↔
  mInjectionVersion m ∈ ivs
  ∧ mkPodVersion (mResource m) (mProxyVersion m) ∈ pvs
  ∧ mProxyVersion m ≠ mInjectionVersion m.
Proof.
  rewrite list_elem_of_bind. setoid_rewrite elem_of_mismatches. split.
  - by intros (iv & (<- & ? & ?) & ?).
  - intros (? & ? & ?). by exists (mInjectionVersion m).
Qed.

(** Every message stems from an entry of the record list. *)
Lemma Analyze_message_recorded (c : Context)
    (msgs : list IstioProxyVersionMismatch) (m : IstioProxyVersionMismatch) :
  Analyze c = Some msgs → m ∈ msgs →
  ∃ inj, scanNamespaces c = Some inj
    ∧ mResource m ∈ K8SCoreV1Pods c
    ∧ mkPodVersion (mResource m) (mProxyVersion m)
        ∈ podRecords inj (mResource m).
Proof.
  intros (inj & st & Hinj & Hst & ->)%Analyze_Some
    (_ & Hrec & _)%elem_of_crossJoin.
  apply scanPods_Some in Hst as (_ & Hpvs & _).
  rewrite Hpvs in Hrec. apply list_elem_of_bind in Hrec as (r & Hrec & Hr).
  pose proof Hrec as (Heq & _)%elem_of_podRecords. simpl in Heq. subst r.
  by exists inj.
Qed.

(** ** Range order *)

(** A [range] over a map visits every key once. *)
Hypothesis rangeKeys_elements : ∀ s, rangeKeys s ≡ₚ elements s.

Lemma elem_of_rangeKeys (s : gset string) (v : string) :
  v ∈ rangeKeys s ↔ v ∈ s.
Proof. by rewrite rangeKeys_elements, elem_of_elements. Qed.

Lemma NoDup_rangeKeys (s : gset string) : NoDup (rangeKeys s).
Proof. rewrite rangeKeys_elements. apply NoDup_elements. Qed.

Lemma elem_of_Analyze (c : Context) (inj : gset string) (st : PodScan)
    (msgs : list IstioProxyVersionMismatch) (m : IstioProxyVersionMismatch) :
  scanNamespaces c = Some inj → scanPods c inj = Some st →
  Analyze c = Some msgs →
  m ∈ msgs ↔
    mInjectionVersion m ∈ injectorVersions st
    ∧ mkPodVersion (mResource m) (mProxyVersion m) ∈ podVersions st
    ∧ mProxyVersion m ≠ mInjectionVersion m.
Proof.
  intros Hinj Hst ->%(Analyze_eq c inj st).
  - by rewrite elem_of_crossJoin, elem_of_rangeKeys.
  - done.
  - done.
Qed.

(** ** Filters of the pod pass *)

(** C2: a namespace name [N] none of whose namespace resources carries the
    enabling label value is the namespace of no reported pod, whatever the
    proxy versions are. *)
Theorem disabled_namespace_unreported (c : Context)
    (msgs : list IstioProxyVersionMismatch) (N : string) :
  InjectionLabelEnableValue ≠ "" →
  Analyze c = Some msgs →
  (∀ ns, ns ∈ K8SCoreV1Namespaces c → FullName (Meta ns) = N →
     MetaLabels (Meta ns) !! InjectionLabelName
     ≠ Some InjectionLabelEnableValue) →
  ∀ m pod, m ∈ msgs → Payload (mResource m) = PodMessage pod →
    Namespace pod ≠ N.
Proof.
  intros Hvalue Hrun Hoff m pod Hm Hpod HN.
  destruct (Analyze_message_recorded c msgs m Hrun Hm)
    as (inj & Hinj & _ & Hrec).
  apply elem_of_podRecords in Hrec
    as (_ & _ & _ & pod' & _ & Hpod' & Hns & _).
  rewrite Hpod in Hpod'. injection Hpod' as <-.
  apply (scanNamespaces_elem c inj _ Hinj) in Hns as (ns & Hin & Hname & Hen).
  apply (Hoff ns Hin); [congruence|].
  by apply go_index_nonempty.
Qed.

(** C3: a pod resource with a non-empty proxy-image override annotation is
    named by no message. *)
Theorem overridden_pod_unreported (c : Context)
    (msgs : list IstioProxyVersionMismatch) (r : Instance) (image : string) :
  Analyze c = Some msgs →
  Annotations (Meta r) !! proxyImageAnnotation = Some image → image ≠ "" →
  ∀ m, m ∈ msgs → mResource m ≠ r.
Proof.
  intros Hrun Himage Hne m Hm <-.
  destruct (Analyze_message_recorded c msgs m Hrun Hm) as (inj & _ & _ & Hrec).
  apply elem_of_podRecords in Hrec as (_ & _ & Han & _).
  apply go_index_Some in Himage. congruence.
Qed.

(** ** Unknown versions *)

Lemma visitPod_no_proxy_version (inj : gset string) (r : Instance)
    (pod : Pod) (st : PodScan) :
  Payload r = PodMessage pod →
  (∀ ct, ct ∈ Containers pod → Name ct = istioProxyName →
     getContainerNameVersion ct = "") →
  ∃ ivs, visitPod inj r st = Some (mkPodScan ivs (podVersions st), true).
Proof.
  intros Hpod Hempty. rewrite (visitPod_pod _ _ _ pod Hpod).
  eexists. do 3 f_equal.
  destruct (podRecords inj r) as [|pv pvs] eqn:Hrec; [by rewrite app_nil_r|].
  assert (pv ∈ podRecords inj r) as Hin by (rewrite Hrec; left).
  apply elem_of_podRecords
    in Hin as (_ & Hne & _ & pod' & ct & Hpod' & _ & Hct & Hname & Hv).
  rewrite Hpod in Hpod'. injection Hpod' as <-.
  destruct Hne. rewrite <- Hv. by apply Hempty.
Qed.

Lemma visitPod_no_injector_version (inj : gset string) (r : Instance)
    (pod : Pod) (st : PodScan) :
  Payload r = PodMessage pod →
  (∀ ct, injectorContainer pod = Some ct → getContainerNameVersion ct = "") →
  ∃ pvs, visitPod inj r st = Some (mkPodScan (injectorVersions st) pvs, true).
Proof.
  intros Hpod Hempty. rewrite (visitPod_pod _ _ _ pod Hpod).
  eexists. case_decide as Hv; [|done]. exfalso.
  assert (announcesInjector pod (tryReturnSidecarInjectorVersion pod))
    as (_ & ct & Hct & Hver & _)
    by by apply tryReturnSidecarInjectorVersion_announces.
  apply Hempty in Hct. congruence.
Qed.

Lemma scanPods_versions_known (c : Context) (inj : gset string)
    (st : PodScan) :
  scanPods c inj = Some st →
  ("" ∉ injectorVersions st)
  ∧ ∀ pv, pv ∈ podVersions st → ProxyVersion pv ≠ "".
Proof.
  intros (_ & Hpvs & Hivs)%scanPods_Some. split.
  - by intros (? & _)%Hivs.
  - intros pv. rewrite Hpvs.
    by intros (r & (_ & ? & _)%elem_of_podRecords & _)%list_elem_of_bind.
Qed.

(** X13: an image reference with no colon, or with two or more, parses to
    the empty version; a pod all of whose containers named like the proxy
    parse to the empty version leaves the record list as it is; a pod
    whose first container named [sidecar-injector-webhook] parses to the
    empty version leaves the injector version set as it is; no empty
    version is ever recorded, compared or reported, and every reported pod
    has a container named like the proxy that parses to the reported
    version. *)
Theorem unknown_version_excluded :
  (∀ ct, Count (Image ct) = 0 ∨ 2 ≤ Count (Image ct) →
     getContainerNameVersion ct = "")
  ∧ (∀ inj r pod st, Payload r = PodMessage pod →
       (∀ ct, ct ∈ Containers pod → Name ct = istioProxyName →
          getContainerNameVersion ct = "") →
       ∃ ivs, visitPod inj r st = Some (mkPodScan ivs (podVersions st), true))
  ∧ (∀ inj r pod st, Payload r = PodMessage pod →
       (∀ ct, injectorContainer pod = Some ct →
          getContainerNameVersion ct = "") →
       ∃ pvs,
         visitPod inj r st = Some (mkPodScan (injectorVersions st) pvs, true))
  ∧ (∀ c inj st, scanNamespaces c = Some inj → scanPods c inj = Some st →
       ("" ∉ injectorVersions st)
       ∧ ∀ pv, pv ∈ podVersions st → ProxyVersion pv ≠ "")
  ∧ (∀ c msgs m, Analyze c = Some msgs → m ∈ msgs →
       mProxyVersion m ≠ "" ∧ mInjectionVersion m ≠ ""
       ∧ ∀ pod, Payload (mResource m) = PodMessage pod →
           ∃ ct, ct ∈ Containers pod ∧ Name ct = istioProxyName
                 ∧ getContainerNameVersion ct = mProxyVersion m).
Proof.
  split_and!.
  - intros ct Hcount. apply getContainerNameVersion_colons. lia.
  - apply visitPod_no_proxy_version.
  - apply visitPod_no_injector_version.
  - intros c inj st _. apply scanPods_versions_known.
  - intros c msgs m Hrun Hm.
    destruct (Analyze_message_recorded c msgs m Hrun Hm)
      as (inj & Hinj & _ & Hrec).
    apply elem_of_podRecords
      in Hrec as (_ & Hne & _ & pod' & ct & Hpod' & _ & Hct & Hname & Hv).
    simpl in *. split_and!; [done| |].
    + pose proof Hrun as (inj' & st & _ & Hst & ->)%Analyze_Some.
      apply elem_of_crossJoin in Hm as (Hiv%elem_of_rangeKeys & _).
      apply scanPods_versions_known in Hst as [Hempty _]. congruence.
    + intros pod Hpod. rewrite Hpod in Hpod'. injection Hpod' as <-.
      by exists ct.
Qed.

(** ** Injector versions *)

Lemma elem_of_injectorVersions (c : Context) (inj : gset string)
    (st : PodScan) (v : string) :
  scanPods c inj = Some st →
  v ∈ injectorVersions st ↔
    ∃ r pod, r ∈ K8SCoreV1Pods c ∧ Payload r = PodMessage pod
             ∧ announcesInjector pod v.
Proof.
  intros (_ & _ & Hivs)%scanPods_Some. rewrite Hivs.
  setoid_rewrite tryReturnSidecarInjectorVersion_announces.
  unfold podInjectorVersion. split.
  - intros (Hne & r & Hr & Hv).
    destruct (Payload r) as [pod| |] eqn:Hpod; [|congruence..].
    by exists r, pod.
  - intros (r & pod & Hr & Hpod & Hv & Hne). split; [done|].
    exists r. by rewrite Hpod.
Qed.

(** C5: when no pod of the snapshot is identified as an injector pod with
    a parsed, non-empty image version, nothing is reported. *)
Theorem no_injector_no_message (c : Context)
    (msgs : list IstioProxyVersionMismatch) :
  (∀ r pod v, r ∈ K8SCoreV1Pods c → Payload r = PodMessage pod →
     ¬ announcesInjector pod v) →
  Analyze c = Some msgs → msgs = [].
Proof.
  intros Hnone (inj & st & _ & Hst & ->)%Analyze_Some.
  assert (injectorVersions st = ∅) as ->.
  { apply elem_of_equiv_empty_L. intros v Hv.
    apply (elem_of_injectorVersions c inj st v Hst)
      in Hv as (r & pod & Hr & Hpod & Hv).
    by apply (Hnone r pod v). }
  pose proof (rangeKeys_elements ∅) as Hperm.
  rewrite elements_empty in Hperm. apply Permutation_nil_r in Hperm.
  by rewrite Hperm.
Qed.

Lemma ForEach_visitPod_injectorVersions (inj inj' : gset string)
    (pods : list Instance) (st st' : PodScan) :
  ForEach pods (visitPod inj) (mkPodScan ∅ []) = Some st →
  ForEach pods (visitPod inj') (mkPodScan ∅ []) = Some st' →
  injectorVersions st = injectorVersions st'.
Proof.
  intros (_ & _ & Hivs)%ForEach_visitPod (_ & _ & Hivs')%ForEach_visitPod.
  apply set_eq. intros v. by rewrite Hivs, Hivs'.
Qed.

(** C7: every pod identified as an injector pod with a parsed, non-empty
    image version contributes that version to the injector version set,
    with no condition on its namespace, its annotations or its proxy
    container: the set is the same whatever the namespace collection is,
    and the version is compared with every recorded proxy version. *)
Theorem injector_detection_unconditional (c : Context) (inj : gset string)
    (st : PodScan) (r : Instance) (pod : Pod) (v : string) :
  scanNamespaces c = Some inj → scanPods c inj = Some st →
  r ∈ K8SCoreV1Pods c → Payload r = PodMessage pod →
  announcesInjector pod v →
  v ∈ injectorVersions st
  ∧ (∀ nss inj' st',
       scanNamespaces (mkContext nss (K8SCoreV1Pods c)) = Some inj' →
       scanPods (mkContext nss (K8SCoreV1Pods c)) inj' = Some st' →
       injectorVersions st' = injectorVersions st)
  ∧ (∀ msgs pv, Analyze c = Some msgs → pv ∈ podVersions st →
       ProxyVersion pv ≠ v →
       NewIstioProxyVersionMismatch (Resource pv) (ProxyVersion pv) v
         ∈ msgs).
Proof.
  intros Hinj Hst Hr Hpod Hv.
  assert (v ∈ injectorVersions st) as Hin.
  { apply (elem_of_injectorVersions c inj st v Hst). by exists r, pod. }
  split_and!; [done| |].
  - intros nss inj' st' _ Hst'. unfold scanPods in *. simpl in Hst'.
    by apply (ForEach_visitPod_injectorVersions inj' inj (K8SCoreV1Pods c)).
  - intros msgs [r' pv] Hrun Hrec Hne.
    by apply (elem_of_Analyze c inj st msgs _ Hinj Hst Hrun).
Qed.

(** ** Totality *)

Lemma visitNamespace_continue (r : Instance) (inj : gset string) :
  ∃ inj', visitNamespace r inj = Some (inj', true).
Proof. unfold visitNamespace. case_decide; by eexists. Qed.

Lemma visitPod_continue (inj : gset string) (r : Instance) (st : PodScan) :
  isPod r → ∃ st', visitPod inj r st = Some (st', true).
Proof. intros [pod Hpod]. rewrite (visitPod_pod _ _ _ pod Hpod). by eexists. Qed.

(** C9: on a snapshot of the declared shape [Analyze] returns its messages
    and does not panic; every visit of a namespace and of a pod updates
    the locals and asks [ForEach] to continue. *)
Theorem Analyze_total_on_conforming (c : Context) :
  conforming c →
  (∃ msgs, Analyze c = Some msgs)
  ∧ (∀ r inj, r ∈ K8SCoreV1Namespaces c →
       ∃ inj', visitNamespace r inj = Some (inj', true))
  ∧ (∀ r inj st, r ∈ K8SCoreV1Pods c →
       ∃ st', visitPod inj r st = Some (st', true)).
Proof.
  intros [Hpods _]. split_and!.
  - by apply Analyze_total.
  - intros r inj _. apply visitNamespace_continue.
  - intros r inj st Hr. apply visitPod_continue.
    by apply (proj1 (Forall_forall _ _) Hpods).
Qed.

(** The type assertion is the only failure: a resource of the pod
    collection that carries no pod makes [Analyze] panic. *)
Lemma Analyze_Some_pods (c : Context) (msgs : list IstioProxyVersionMismatch) :
  Analyze c = Some msgs → Forall isPod (K8SCoreV1Pods c).
Proof. by intros (inj & st & _ & (? & _)%scanPods_Some & _)%Analyze_Some. Qed.

(** ** Injector pods as workloads *)

Lemma eligible_pod_recorded (c : Context) (inj : gset string) (st : PodScan)
    (r : Instance) (pod : Pod) (ct : Container) :
  scanPods c inj = Some st →
  r ∈ K8SCoreV1Pods c → Payload r = PodMessage pod →
  Namespace pod ∈ inj →
  go_index (Annotations (Meta r)) proxyImageAnnotation = "" →
  ct ∈ Containers pod → Name ct = istioProxyName →
  getContainerNameVersion ct ≠ "" →
  mkPodVersion r (getContainerNameVersion ct) ∈ podVersions st.
Proof.
  intros (_ & -> & _)%scanPods_Some Hr Hpod Hns Han Hct Hname Hv.
  apply list_elem_of_bind. exists r. split; [|done].
  apply elem_of_podRecords. simpl. split_and!; [done..|].
  by exists pod, ct.
Qed.

(** C10: a pod identified as an injector pod that lies in an enabled
    namespace, has no non-empty override annotation and has a proxy
    container with a parsed, non-empty version is recorded like any
    workload pod, and is reported against every injector version that
    differs from its proxy version. *)
Theorem injector_pod_checked_as_workload (c : Context) (inj : gset string)
    (st : PodScan) (msgs : list IstioProxyVersionMismatch)
    (r ns : Instance) (pod : Pod) (ct : Container) (pv : string) :
  scanNamespaces c = Some inj → scanPods c inj = Some st →
  Analyze c = Some msgs →
  r ∈ K8SCoreV1Pods c → Payload r = PodMessage pod →
  Labels pod !! "app" = Some sidecarInjectorName →
  ns ∈ K8SCoreV1Namespaces c → FullName (Meta ns) = Namespace pod →
  MetaLabels (Meta ns) !! InjectionLabelName
    = Some InjectionLabelEnableValue →
  (∀ image, Annotations (Meta r) !! proxyImageAnnotation = Some image →
     image = "") →
  ct ∈ Containers pod → Name ct = istioProxyName →
  getContainerNameVersion ct = pv → pv ≠ "" →
  mkPodVersion r pv ∈ podVersions st
  ∧ ∀ iv, iv ∈ injectorVersions st → iv ≠ pv →
      NewIstioProxyVersionMismatch r pv iv ∈ msgs.
Proof.
  intros Hinj Hst Hrun Hr Hpod _ Hns Hname Hlabel Han Hct Hproxy <- Hne.
  assert (mkPodVersion r (getContainerNameVersion ct) ∈ podVersions st)
    as Hrec.
  { apply (eligible_pod_recorded c inj st r pod ct); try done.
    - apply (scanNamespaces_elem c inj _ Hinj). exists ns.
      split_and!; [done..|]. by apply go_index_Some.
    - unfold go_index.
      destruct (Annotations (Meta r) !! proxyImageAnnotation) as [image|]
        eqn:Himage; [|done].
      simpl. by apply Han. }
  split; [done|]. intros iv Hiv Hdiff.
  apply (elem_of_Analyze c inj st msgs _ Hinj Hst Hrun). simpl.
  split_and!; [done..|]. congruence.
Qed.

(** ** Multiplicity of the final comparison *)

Lemma occurrences_app {A : Type} `{EqDecision A} (x : A) (l k : list A) :
  occurrences x (l ++ k) = occurrences x l + occurrences x k.
Proof. unfold occurrences. by rewrite filter_app, length_app. Qed.

Lemma occurrences_cons {A : Type} `{EqDecision A} (x y : A) (l : list A) :
  occurrences x (y :: l)
  = (if decide (y = x) then 1 else 0) + occurrences x l.
Proof. unfold occurrences. rewrite filter_cons. by case_decide. Qed.

Lemma occurrences_not_elem_of {A : Type} `{EqDecision A} (x : A)
    (l : list A) :
  x ∉ l → occurrences x l = 0.
Proof.
  intros Hx. unfold occurrences.
  destruct (filter _ l) as [|y k] eqn:Hf; [done|].
  assert (y ∈ filter (λ y, y = x) l) as [-> ?]%list_elem_of_filter
    by (rewrite Hf; left).
  done.
Qed.

Lemma occurrences_mismatches (pvs : list podVersion) (iv : string)
    (m : IstioProxyVersionMismatch) :
  occurrences m (mismatches pvs iv)
  = if decide (mInjectionVersion m = iv ∧ mProxyVersion m ≠ iv)
    then occurrences (mkPodVersion (mResource m) (mProxyVersion m)) pvs
    else 0.
Proof.
  case_decide as Hd.
  - destruct Hd as [<- Hne]. unfold mismatches.
    induction pvs as [|[r pv] pvs IH]; [done|].
    rewrite occurrences_cons, filter_cons. simpl.
    destruct (decide (pv ≠ mInjectionVersion m)) as [Hpv|Hpv%dec_stable].
    + rewrite fmap_cons, occurrences_cons, IH. simpl. f_equal.
      destruct m as [r' pv' iv']. simpl in *.
      repeat case_decide; congruence.
    + rewrite IH, decide_False; [done|]. intros [= _ Hv]. congruence.
  - apply occurrences_not_elem_of.
    intros (? & _ & ?)%elem_of_mismatches. by apply Hd.
Qed.

Lemma occurrences_crossJoin (ivs : list string) (pvs : list podVersion)
    (m : IstioProxyVersionMismatch) :
  NoDup ivs →
  occurrences m (ivs ≫= mismatches pvs)
  = if decide (mInjectionVersion m ∈ ivs
               ∧ mProxyVersion m ≠ mInjectionVersion m)
    then occurrences (mkPodVersion (mResource m) (mProxyVersion m)) pvs
    else 0.
Proof.
  induction 1 as [|iv ivs Hiv _ IH].
  - by simpl.
  - rewrite bind_cons, occurrences_app, occurrences_mismatches, IH.
    destruct (decide (mInjectionVersion m = iv)) as [<-|Hne].
    + destruct (decide (mProxyVersion m ≠ mInjectionVersion m)) as [Hd|Hd].
      * rewrite decide_True by done.
        rewrite (decide_False (P := _ ∈ ivs ∧ _)) by (by intros [? _]).
        rewrite decide_True by (split; [left|done]). lia.
      * by rewrite !decide_False by (by intros [_ ?]).
    + rewrite (decide_False (P := _ = iv ∧ _)) by (by intros [? _]).
      simpl. apply decide_ext. rewrite elem_of_cons.
      split; [intros [? ?]; split; [by right|done]|].
      by intros [[?|?] ?].
Qed.

Lemma messagesOf_mismatches (r : Instance) (pvs : list podVersion)
    (iv : string) :
  messagesOf r (mismatches pvs iv) = mismatches (recordsOf r pvs) iv.
Proof.
  unfold messagesOf, recordsOf, mismatches.
  induction pvs as [|pv pvs IH]; [done|].
  rewrite !filter_cons.
  destruct (decide (ProxyVersion pv ≠ iv)), (decide (Resource pv = r));
    rewrite ?fmap_cons, ?filter_cons; simpl;
    rewrite ?decide_True, ?decide_False by done; by rewrite IH.
Qed.

Lemma messagesOf_crossJoin (r : Instance) (ivs : list string)
    (pvs : list podVersion) :
  messagesOf r (ivs ≫= mismatches pvs) = ivs ≫= mismatches (recordsOf r pvs).
Proof.
  induction ivs as [|iv ivs IH]; [done|].
  rewrite !bind_cons. unfold messagesOf in *.
  rewrite filter_app, IH. f_equal. apply messagesOf_mismatches.
Qed.

Lemma crossJoin_singleton (ivs : list string) (r : Instance) (pv : string) :
  ivs ≫= mismatches [mkPodVersion r pv]
  = NewIstioProxyVersionMismatch r pv <$> filter (λ iv, pv ≠ iv) ivs.
Proof.
  induction ivs as [|iv ivs IH]; [done|].
  rewrite bind_cons, filter_cons, IH. unfold mismatches at 1.
  rewrite filter_cons. simpl. by case_decide.
Qed.

Lemma elements_remove (s : gset string) (pv : string) (l : list string) :
  NoDup l → (∀ iv, iv ∈ l ↔ iv ∈ s ∧ iv ≠ pv) →
  elements (s ∖ {[pv]}) ≡ₚ l.
Proof.
  intros Hl Hiff. apply NoDup_Permutation; [apply NoDup_elements|done|].
  intros iv.
  by rewrite elem_of_elements, elem_of_difference, elem_of_singleton, Hiff.
Qed.

Lemma messagesOf_recorded_once (c : Context) (inj : gset string)
    (st : PodScan) (msgs : list IstioProxyVersionMismatch)
    (r : Instance) (pv : string) :
  scanNamespaces c = Some inj → scanPods c inj = Some st →
  Analyze c = Some msgs →
  recordsOf r (podVersions st) = [mkPodVersion r pv] →
  messagesOf r msgs
  ≡ₚ NewIstioProxyVersionMismatch r pv
       <$> elements (injectorVersions st ∖ {[pv]}).
Proof.
  intros Hinj Hst Hrun Hrec.
  rewrite (Analyze_eq c inj st msgs Hinj Hst Hrun).
  rewrite messagesOf_crossJoin, Hrec, crossJoin_singleton.
  apply fmap_Permutation. symmetry. apply elements_remove.
  - apply NoDup_filter, NoDup_rangeKeys.
  - intros iv. rewrite list_elem_of_filter, elem_of_rangeKeys.
    split; intros [? ?]; split; congruence.
Qed.

(** ** Repeated messages *)

Lemma length_mismatches (pvs : list podVersion) (iv : string) :
  length (mismatches pvs iv) ≤ length pvs.
Proof. unfold mismatches. rewrite length_fmap. apply length_filter. Qed.

Lemma messagesOfPair_mismatches (r : Instance) (iv iv' : string)
    (pvs : list podVersion) :
  messagesOfPair r iv (mismatches pvs iv')
  = if decide (iv' = iv) then mismatches (recordsOf r pvs) iv' else [].
Proof.
  unfold messagesOfPair.
  rewrite <- (list_filter_filter (λ m, mResource m = r)
                (λ m, mInjectionVersion m = iv)).
  case_decide as Hiv.
  - rewrite (filter_all (λ m, mInjectionVersion m = iv)).
    + apply messagesOf_mismatches.
    + intros m (? & _)%elem_of_mismatches. congruence.
  - rewrite (filter_none (λ m, mInjectionVersion m = iv)); [done|].
    intros m (? & _)%elem_of_mismatches. congruence.
Qed.

Lemma length_messagesOfPair_crossJoin (r : Instance) (iv : string)
    (ivs : list string) (pvs : list podVersion) :
  NoDup ivs →
  length (messagesOfPair r iv (ivs ≫= mismatches pvs))
  ≤ if decide (iv ∈ ivs) then length (recordsOf r pvs) else 0.
Proof.
  induction 1 as [|iv' ivs Hiv' _ IH]; [done|].
  rewrite bind_cons. unfold messagesOfPair in *.
  rewrite filter_app, length_app.
  pose proof (messagesOfPair_mismatches r iv iv' pvs) as Hhead.
  unfold messagesOfPair in Hhead. rewrite Hhead.
  pose proof (length_mismatches (recordsOf r pvs) iv').
  destruct (decide (iv' = iv)) as [->|Hne].
  - rewrite decide_False in IH by done.
    rewrite decide_True by left. lia.
  - simpl. destruct (decide (iv ∈ ivs)) as [Hin|Hin].
    + rewrite decide_True by (by right). lia.
    + rewrite decide_False; [lia|]. by intros [?|?]%elem_of_cons.
Qed.

Lemma recordsOf_podRecords (inj : gset string) (r r' : Instance) :
  recordsOf r (podRecords inj r')
  = if decide (r' = r) then podRecords inj r else [].
Proof.
  unfold recordsOf. case_decide as Hr.
  - subst r'. apply filter_all. by intros pv (? & _)%elem_of_podRecords.
  - apply filter_none. intros pv (? & _)%elem_of_podRecords. congruence.
Qed.

Lemma length_recordsOf (inj : gset string) (r : Instance)
    (pods : list Instance) :
  NoDup pods →
  length (recordsOf r (pods ≫= podRecords inj)) ≤ length (podRecords inj r).
Proof.
  induction 1 as [|r' pods Hr' _ IH]; [simpl; lia|].
  pose proof (recordsOf_podRecords inj r r') as Hhead.
  unfold recordsOf in *. rewrite bind_cons, filter_app, length_app, Hhead.
  destruct (decide (r' = r)) as [->|_]; [|simpl; lia].
  rewrite (filter_none _ (pods ≫= _)); [simpl; lia|].
  intros pv (r' & (? & _)%elem_of_podRecords & ?)%list_elem_of_bind.
  congruence.
Qed.

Lemma length_podRecords (inj : gset string) (r : Instance) (pod : Pod) :
  Payload r = PodMessage pod →
  length (podRecords inj r) ≤ length (filter proxyParseable (Containers pod)).
Proof.
  intros Hpod. unfold podRecords. rewrite Hpod.
  case_decide; [by rewrite length_fmap|simpl; lia].
Qed.

(** C6, amended: when every resource of the pod collection is visited
    once, a pod with at most one proxy container of parsed, non-empty
    version is reported at most once against any one injector version. *)
Theorem pair_reported_at_most_once (c : Context)
    (msgs : list IstioProxyVersionMismatch) (r : Instance) (pod : Pod)
    (iv : string) :
  NoDup (K8SCoreV1Pods c) →
  Analyze c = Some msgs →
  Payload r = PodMessage pod →
  length (filter proxyParseable (Containers pod)) ≤ 1 →
  length (messagesOfPair r iv msgs) ≤ 1.
Proof.
  intros Hnodup (inj & st & _ & Hst & ->)%Analyze_Some Hpod Hone.
  pose proof (length_messagesOfPair_crossJoin r iv
                (rangeKeys (injectorVersions st)) (podVersions st)
                (NoDup_rangeKeys _)) as Hpair.
  apply scanPods_Some in Hst as (_ & Hpvs & _). rewrite Hpvs in Hpair |- *.
  pose proof (length_recordsOf inj r _ Hnodup).
  pose proof (length_podRecords inj r pod Hpod).
  destruct (decide (iv ∈ _)); lia.
Qed.

Lemma recordsOf_visited_once (c : Context) (inj : gset string)
    (st : PodScan) (r : Instance) (pod : Pod) (pv : string) :
  scanPods c inj = Some st → NoDup (K8SCoreV1Pods c) →
  Payload r = PodMessage pod →
  length (filter proxyParseable (Containers pod)) ≤ 1 →
  mkPodVersion r pv ∈ podVersions st →
  recordsOf r (podVersions st) = [mkPodVersion r pv].
Proof.
  intros (_ & Hpvs & _)%scanPods_Some Hnodup Hpod Hone Hrec.
  pose proof (length_recordsOf inj r _ Hnodup) as Hlen.
  pose proof (length_podRecords inj r pod Hpod).
  rewrite <- Hpvs in Hlen.
  assert (mkPodVersion r pv ∈ recordsOf r (podVersions st)) as Hin
    by (by apply list_elem_of_filter).
  destruct (recordsOf r (podVersions st)) as [|x [|y l]]; simpl in *.
  - by apply elem_of_nil in Hin.
  - by apply list_elem_of_singleton in Hin as ->.
  - lia.
Qed.

Lemma occurrences_recordsOf (r : Instance) (pv : string)
    (pvs : list podVersion) :
  recordsOf r pvs = [mkPodVersion r pv] →
  occurrences (mkPodVersion r pv) pvs = 1.
Proof.
  intros Hrec. unfold occurrences.
  rewrite (list_filter_iff _
             (λ y, y = mkPodVersion r pv ∧ Resource y = r)) by
    (intros y; split; [by intros ->|by intros [? _]]).
  rewrite <- (list_filter_filter (λ y, y = mkPodVersion r pv)
                (λ y, Resource y = r)).
  fold (recordsOf r pvs). rewrite Hrec.
  by rewrite filter_cons, decide_True by done.
Qed.

(** C1, amended: the message [(r, pv, iv)] is reported as often as the
    entry [(r, pv)] stands in the record list when [iv] is an injector
    version other than [pv], and never otherwise.  When every pod resource
    is visited once, a recorded pod with at most one container named like
    the proxy of parsed, non-empty version, recorded with version [pv], is
    reported exactly once against each injector version other than [pv]
    and never against [pv]: once for [S = {1.2.0}] and [pv = 1.1.0], once
    (against 1.3.0) for [S = {1.2.0, 1.3.0}] and [pv = 1.2.0], twice for
    [pv = 1.1.0]. *)
Theorem cross_join_multiplicity (c : Context) (inj : gset string)
    (st : PodScan) (msgs : list IstioProxyVersionMismatch) :
  scanNamespaces c = Some inj → scanPods c inj = Some st →
  Analyze c = Some msgs →
  (∀ r pv iv,
     occurrences (NewIstioProxyVersionMismatch r pv iv) msgs
     = if decide (iv ∈ injectorVersions st ∧ pv ≠ iv)
       then occurrences (mkPodVersion r pv) (podVersions st)
       else 0)
  ∧ (NoDup (K8SCoreV1Pods c) →
     ∀ r pod pv,
       Payload r = PodMessage pod →
       length (filter proxyParseable (Containers pod)) ≤ 1 →
       mkPodVersion r pv ∈ podVersions st →
       occurrences (NewIstioProxyVersionMismatch r pv pv) msgs = 0
       ∧ (∀ iv, iv ∈ injectorVersions st → iv ≠ pv →
            occurrences (NewIstioProxyVersionMismatch r pv iv) msgs = 1)
       ∧ messagesOf r msgs
         ≡ₚ NewIstioProxyVersionMismatch r pv
              <$> elements (injectorVersions st ∖ {[pv]})
       ∧ (injectorVersions st = {[ "1.2.0" ]} → pv = "1.1.0" →
          messagesOf r msgs
          = [NewIstioProxyVersionMismatch r "1.1.0" "1.2.0"])
       ∧ (injectorVersions st = {[ "1.2.0"; "1.3.0" ]} →
          (pv = "1.2.0" →
           messagesOf r msgs
           = [NewIstioProxyVersionMismatch r "1.2.0" "1.3.0"])
          ∧ (pv = "1.1.0" →
             length (messagesOf r msgs) = 2
             ∧ messagesOf r msgs
               ≡ₚ [NewIstioProxyVersionMismatch r "1.1.0" "1.2.0";
                   NewIstioProxyVersionMismatch r "1.1.0" "1.3.0"]))).
Proof.
  intros Hinj Hst Hrun.
  assert (∀ r pv iv,
            occurrences (NewIstioProxyVersionMismatch r pv iv) msgs
            = if decide (iv ∈ injectorVersions st ∧ pv ≠ iv)
              then occurrences (mkPodVersion r pv) (podVersions st)
              else 0) as Hcount.
  { intros r pv iv. rewrite (Analyze_eq c inj st msgs Hinj Hst Hrun).
    rewrite occurrences_crossJoin by apply NoDup_rangeKeys. simpl.
    apply decide_ext. by rewrite elem_of_rangeKeys. }
  split; [done|]. intros Hnodup r pod pv Hpod Hone Hin.
  pose proof (recordsOf_visited_once c inj st r pod pv Hst Hnodup Hpod
                Hone Hin) as Hrec.
  pose proof (occurrences_recordsOf r pv _ Hrec) as Hocc.
  pose proof (messagesOf_recorded_once c inj st msgs r pv Hinj Hst Hrun Hrec)
    as Honce.
  split_and!.
  - rewrite Hcount. by rewrite decide_False by (by intros [_ ?]).
  - intros iv Hiv Hne. rewrite Hcount.
    by rewrite decide_True by (split; [done|congruence]).
  - done.
  - intros HS ->. rewrite (elements_remove _ _ ["1.2.0"]) in Honce.
    + by apply Permutation_singleton_r in Honce.
    + apply NoDup_singleton.
    + intros iv. rewrite HS, list_elem_of_singleton, elem_of_singleton.
      split; [by intros ->|by intros [-> _]].
  - intros HS.
    assert (∀ iv : string,
              iv ∈ injectorVersions st ↔ iv = "1.2.0" ∨ iv = "1.3.0")
      as Hmem.
    { intros iv. by rewrite HS, elem_of_union, !elem_of_singleton. }
    split; intros ->.
    + rewrite (elements_remove _ _ ["1.3.0"]) in Honce.
      * by apply Permutation_singleton_r in Honce.
      * apply NoDup_singleton.
      * intros iv. rewrite Hmem, list_elem_of_singleton.
        split; [by intros ->; split; [right|]|by intros [[->| ->] ?]].
    + rewrite (elements_remove _ _ ["1.2.0"; "1.3.0"]) in Honce.
      * split; [by rewrite Honce|done].
      * apply NoDup_cons_2; [|apply NoDup_singleton].
        by intros [=]%list_elem_of_singleton.
      * intros iv. rewrite Hmem, elem_of_cons, list_elem_of_singleton.
        split; [by intros [->| ->]; split; [left| |right|]|by intros [? _]].
Qed.

(** ** Order of the visits *)

Lemma mismatches_Permutation (pvs pvs' : list podVersion) (iv : string) :
  pvs ≡ₚ pvs' → mismatches pvs iv ≡ₚ mismatches pvs' iv.
Proof. unfold mismatches. by intros ->. Qed.

Lemma crossJoin_Permutation (ivs ivs' : list string)
    (pvs pvs' : list podVersion) :
  ivs ≡ₚ ivs' → pvs ≡ₚ pvs' →
  ivs ≫= mismatches pvs ≡ₚ ivs' ≫= mismatches pvs'.
Proof.
  intros -> Hpvs. induction ivs' as [|iv ivs' IH]; [done|].
  rewrite !bind_cons. by rewrite IH, (mismatches_Permutation pvs pvs').
Qed.

Lemma scanNamespaces_Permutation (c c' : Context) (inj inj' : gset string) :
  K8SCoreV1Namespaces c ≡ₚ K8SCoreV1Namespaces c' →
  scanNamespaces c = Some inj → scanNamespaces c' = Some inj' →
  inj = inj'.
Proof.
  intros Hperm Hinj Hinj'. apply set_eq. intros N.
  rewrite (scanNamespaces_elem c inj N Hinj).
  rewrite (scanNamespaces_elem c' inj' N Hinj').
  by setoid_rewrite Hperm.
Qed.

Lemma scanPods_Permutation (c c' : Context) (inj : gset string)
    (st st' : PodScan) :
  K8SCoreV1Pods c ≡ₚ K8SCoreV1Pods c' →
  scanPods c inj = Some st → scanPods c' inj = Some st' →
  injectorVersions st = injectorVersions st'
  ∧ podVersions st ≡ₚ podVersions st'.
Proof.
  intros Hperm (_ & Hpvs & Hivs)%scanPods_Some
    (_ & Hpvs' & Hivs')%scanPods_Some.
  split.
  - apply set_eq. intros v. rewrite Hivs, Hivs'. by setoid_rewrite Hperm.
  - by rewrite Hpvs, Hpvs', Hperm.
Qed.

(** * Further properties of the analyzer *)

(** ** Image references *)

Lemma Split_no_colon (s : string) : Count s = 0 → Split s = [s].
Proof.
  induction s as [|ch rest IH]; simpl; [done|].
  case_decide; [done|]. intros Hrest. by rewrite IH.
Qed.

Lemma Split_prefix (a b : string) :
  Count a = 0 → Split (a +:+ ":" +:+ b) = a :: Split b.
Proof.
  induction a as [|ch a IH]; simpl; [done|].
  case_decide; [done|]. intros Ha. by rewrite IH.
Qed.

Lemma Split_cons_inv (s a p : string) (ps : list string) :
  Split s = a :: p :: ps →
  ∃ s', s = a +:+ ":" +:+ s' ∧ Count a = 0 ∧ Split s' = p :: ps.
Proof.
  revert a. induction s as [|ch rest IH]; intros a; simpl; [done|].
  case_decide as Hch.
  - intros [= <- Hrest]. exists rest. by rewrite Hch.
  - destruct (Split rest) as [|part parts] eqn:Hsplit; [done|].
    intros [= <- ->].
    destruct (IH part eq_refl) as (s' & -> & Hpart & Hs').
    exists s'. simpl. by rewrite decide_False by done.
Qed.

Lemma Split_one_inv (s b : string) : Split s = [b] → s = b ∧ Count b = 0.
Proof.
  intros Hsplit. pose proof (Split_length s) as Hlen.
  rewrite Hsplit in Hlen. simpl in Hlen.
  assert (Count s = 0) as Hs by lia.
  rewrite (Split_no_colon s Hs) in Hsplit. by injection Hsplit as <-.
Qed.

(** X1: the version of a container is the tag of an image reference
    [repo:tag] with no other colon, an empty tag included; and every
    non-empty version stems from such a reference, so that it holds no
    colon and the image is the repository, a colon and the version. *)
Theorem getContainerNameVersion_tag :
  (∀ ct repo tag, Image ct = repo +:+ ":" +:+ tag →
     Count repo = 0 → Count tag = 0 → getContainerNameVersion ct = tag)
  ∧ (∀ ct, getContainerNameVersion ct ≠ "" →
       ∃ repo, Image ct = repo +:+ ":" +:+ getContainerNameVersion ct
               ∧ Count repo = 0 ∧ Count (getContainerNameVersion ct) = 0).
Proof.
  split.
  - intros ct repo tag Himage Hrepo Htag. unfold getContainerNameVersion.
    rewrite Himage, (Split_prefix _ _ Hrepo), (Split_no_colon _ Htag).
    by simpl.
  - intros ct. unfold getContainerNameVersion. cbv zeta.
    destruct (Split (Image ct)) as [|a [|b [|? ?]]] eqn:Hsplit; simpl;
      [done..| |done].
    intros _. apply Split_cons_inv in Hsplit as (s' & Himage & Ha & Hs').
    apply Split_one_inv in Hs' as [-> Hb]. by exists a.
Qed.

(** ** The injector container *)

Lemma injectorContainerVersion_first (pre post : list Container)
    (ct : Container) :
  Forall (λ c, Name c ≠ injectorName) pre → Name ct = injectorName →
  injectorContainerVersion (pre ++ ct :: post) = getContainerNameVersion ct.
Proof.
  intros Hpre Hct. induction Hpre as [|c pre Hc _ IH]; simpl.
  - by rewrite decide_False by (by intros ?).
  - by rewrite decide_True by done.
Qed.

Lemma injectorContainerVersion_none (cs : list Container) :
  Forall (λ c, Name c ≠ injectorName) cs → injectorContainerVersion cs = "".
Proof.
  induction 1 as [|c cs Hc _ IH]; simpl; [done|].
  by rewrite decide_True by done.
Qed.

(** X2: on a pod labelled as the injector, the version returned is that of
    the first container named [sidecar-injector-webhook]: containers of
    other names before it and any container after it, of whatever name and
    image, do not count. *)
Theorem tryReturnSidecarInjectorVersion_first (p : Pod)
    (pre post : list Container) (ct : Container) :
  Labels p !! "app" = Some sidecarInjectorName →
  Containers p = pre ++ ct :: post →
  Forall (λ c, Name c ≠ injectorName) pre → Name ct = injectorName →
  tryReturnSidecarInjectorVersion p = getContainerNameVersion ct.
Proof.
  intros Happ Hcs Hpre Hct. unfold tryReturnSidecarInjectorVersion.
  rewrite (go_index_Some _ _ _ Happ), decide_False by (by intros ?).
  rewrite Hcs. by apply injectorContainerVersion_first.
Qed.

(** X3: a pod whose [app] label is missing or differs from
    [sidecarInjectorWebhook], or that has no container named
    [sidecar-injector-webhook], yields the empty version, whatever images
    its containers have. *)
Theorem tryReturnSidecarInjectorVersion_empty (p : Pod) :
  Labels p !! "app" ≠ Some sidecarInjectorName
  ∨ Forall (λ c, Name c ≠ injectorName) (Containers p) →
  tryReturnSidecarInjectorVersion p = "".
Proof.
  intros Hnot. unfold tryReturnSidecarInjectorVersion.
  destruct (decide (go_index (Labels p) "app" ≠ sidecarInjectorName))
    as [|Happ%dec_stable]; [done|].
  destruct Hnot as [Hlabel|Hnone].
  - destruct Hlabel. by apply go_index_nonempty.
  - by apply injectorContainerVersion_none.
Qed.

(** ** What is reported, and when the analyzer fails *)

(** X4: a message is reported exactly when its pod resource is in the pod
    collection, lies in a namespace that some namespace resource enables,
    has no non-empty override annotation and has a container named like
    the proxy whose parsed version is the reported, non-empty proxy
    version; its injector version is announced by some pod of the
    collection; and the two versions differ. *)
Theorem message_reported_iff (c : Context)
    (msgs : list IstioProxyVersionMismatch) (m : IstioProxyVersionMismatch) :
  Analyze c = Some msgs →
  m ∈ msgs ↔
    mProxyVersion m ≠ mInjectionVersion m
    ∧ (∃ ri podi, ri ∈ K8SCoreV1Pods c ∧ Payload ri = PodMessage podi
                  ∧ announcesInjector podi (mInjectionVersion m))
    ∧ mResource m ∈ K8SCoreV1Pods c
    ∧ go_index (Annotations (Meta (mResource m))) proxyImageAnnotation = ""
    ∧ ∃ pod ns ct,
        Payload (mResource m) = PodMessage pod
        ∧ ns ∈ K8SCoreV1Namespaces c ∧ FullName (Meta ns) = Namespace pod
        ∧ injectionEnabled ns
        ∧ ct ∈ Containers pod ∧ Name ct = istioProxyName
        ∧ getContainerNameVersion ct = mProxyVersion m
        ∧ mProxyVersion m ≠ "".
Proof.
  intros Hrun.
  pose proof Hrun as (inj & st & Hinj & Hst & _)%Analyze_Some.
  rewrite (elem_of_Analyze c inj st msgs m Hinj Hst Hrun).
  rewrite (elem_of_injectorVersions c inj st _ Hst).
  pose proof Hst as (_ & -> & _)%scanPods_Some.
  rewrite list_elem_of_bind. split.
  - intros (Hiv & (r & Hrec & Hr) & Hne).
    apply elem_of_podRecords
      in Hrec as (<- & Hpv & Han & pod & ct & Hpod & Hns & Hct & Hname & Hv).
    simpl in *.
    apply (scanNamespaces_elem c inj _ Hinj) in Hns as (ns & Hin & HN & Hen).
    split_and!; [done..|]. by exists pod, ns, ct.
  - intros (Hne & Hiv & Hr & Han & pod & ns & ct & Hpod & Hin & HN & Hen
            & Hct & Hname & Hv & Hpv).
    split_and!; [done| |done].
    exists (mResource m). split; [|done].
    apply elem_of_podRecords. simpl. split_and!; [done..|].
    exists pod, ct. split_and!; [done| |done..].
    apply (scanNamespaces_elem c inj _ Hinj). by exists ns.
Qed.

Lemma ForEach_visitPod_None (inj : gset string) (pods : list Instance)
    (st : PodScan) :
  ForEach pods (visitPod inj) st = None ↔ ∃ r, r ∈ pods ∧ ¬ isPod r.
Proof.
  revert st. induction pods as [|r pods IH]; intros st; simpl.
  - split; [done|]. by intros (r & ?%elem_of_nil & _).
  - destruct (Payload r) as [pod| |] eqn:Hpod.
    + rewrite (visitPod_pod _ _ _ pod Hpod), IH. split.
      * intros (r' & Hr' & Hnot). exists r'. split; [by right|done].
      * intros (r' & [->|Hr']%elem_of_cons & Hnot); [|by exists r'].
        destruct Hnot. by exists pod.
    + unfold visitPod. rewrite Hpod. split; [intros _|done].
      exists r. split; [left|]. intros [pod Hpod']. congruence.
    + unfold visitPod. rewrite Hpod. split; [intros _|done].
      exists r. split; [left|]. intros [pod Hpod']. congruence.
Qed.

(** X5: the analyzer panics exactly when some resource of the pod
    collection carries no pod; the assertion comes before every filter, so
    the namespace, the annotations and the containers of the other pods,
    and the whole namespace collection, make no difference. *)
Theorem Analyze_panics_iff (c : Context) :
  Analyze c = None ↔ ∃ r, r ∈ K8SCoreV1Pods c ∧ ¬ isPod r.
Proof.
  destruct (scanNamespaces_total c) as [inj Hinj].
  rewrite <- (ForEach_visitPod_None inj _ (mkPodScan ∅ [])).
  unfold Analyze. rewrite Hinj. simpl. fold (scanPods c inj).
  by destruct (scanPods c inj).
Qed.

(** ** How the report depends on the snapshot *)

(** X6: of the namespace collection only the names that some resource
    enables matter: two collections that enable the same names give the
    same result with the same pods, whatever the payloads, annotations,
    other labels, order and repetitions of their resources are. *)
Theorem Analyze_enabled_names_only (nss nss' pods : list Instance) :
  (∀ N, (∃ r, r ∈ nss ∧ FullName (Meta r) = N ∧ injectionEnabled r)
        ↔ (∃ r, r ∈ nss' ∧ FullName (Meta r) = N ∧ injectionEnabled r)) →
  Analyze (mkContext nss pods) = Analyze (mkContext nss' pods).
Proof.
  intros Hsame.
  destruct (scanNamespaces_total (mkContext nss pods)) as [inj Hinj].
  destruct (scanNamespaces_total (mkContext nss' pods)) as [inj' Hinj'].
  assert (inj = inj') as <-.
  { apply set_eq. intros N.
    rewrite (scanNamespaces_elem _ inj N Hinj).
    rewrite (scanNamespaces_elem _ inj' N Hinj'). apply Hsame. }
  unfold Analyze. by rewrite Hinj, Hinj'.
Qed.

(** X7: the report grows with the snapshot: when every namespace resource
    and every pod resource of one snapshot is also in another, every
    message reported for the first is reported for the second. *)
Theorem Analyze_monotone (c c' : Context)
    (msgs msgs' : list IstioProxyVersionMismatch) :
  (∀ r, r ∈ K8SCoreV1Namespaces c → r ∈ K8SCoreV1Namespaces c') →
  (∀ r, r ∈ K8SCoreV1Pods c → r ∈ K8SCoreV1Pods c') →
  Analyze c = Some msgs → Analyze c' = Some msgs' →
  ∀ m, m ∈ msgs → m ∈ msgs'.
Proof.
  intros Hnss Hpods Hrun Hrun' m.
  pose proof Hrun as (inj & st & Hinj & Hst & _)%Analyze_Some.
  pose proof Hrun' as (inj' & st' & Hinj' & Hst' & _)%Analyze_Some.
  rewrite (elem_of_Analyze c inj st msgs m Hinj Hst Hrun).
  rewrite (elem_of_Analyze c' inj' st' msgs' m Hinj' Hst' Hrun').
  rewrite (elem_of_injectorVersions c inj st _ Hst).
  rewrite (elem_of_injectorVersions c' inj' st' _ Hst').
  pose proof Hst as (_ & -> & _)%scanPods_Some.
  pose proof Hst' as (_ & -> & _)%scanPods_Some.
  rewrite !list_elem_of_bind.
  intros ((ri & podi & Hri & Hpodi & Hiv) & (r & Hrec & Hr) & Hne).
  split_and!; [|exists r; split; [|by apply Hpods]|done].
  - exists ri, podi. split_and!; [by apply Hpods|done..].
  - apply elem_of_podRecords
      in Hrec as (Hres & Hpv & Han & pod & ct & Hpod & Hns & Hrest).
    apply elem_of_podRecords. split_and!; [done..|].
    exists pod, ct. split_and!; [done| |apply Hrest..].
    apply (scanNamespaces_elem c inj _ Hinj) in Hns as (ns & Hin & HN & Hen).
    apply (scanNamespaces_elem c' inj' _ Hinj'). exists ns.
    split_and!; [by apply Hnss|done..].
Qed.

(** X8: while two different injector versions are observed, every entry
    of the record list is reported at least once: its proxy version
    differs from one of the two. *)
Theorem two_injector_versions_report_every_record (c : Context)
    (inj : gset string) (st : PodScan)
    (msgs : list IstioProxyVersionMismatch) (iv1 iv2 : string) :
  scanNamespaces c = Some inj → scanPods c inj = Some st →
  Analyze c = Some msgs →
  iv1 ∈ injectorVersions st → iv2 ∈ injectorVersions st → iv1 ≠ iv2 →
  ∀ pv, pv ∈ podVersions st →
    ∃ iv, NewIstioProxyVersionMismatch (Resource pv) (ProxyVersion pv) iv
            ∈ msgs.
Proof.
  intros Hinj Hst Hrun H1 H2 Hne [r v] Hrec. simpl.
  destruct (decide (v = iv1)) as [->|Hv].
  - exists iv2. by apply (elem_of_Analyze c inj st msgs _ Hinj Hst Hrun).
  - exists iv1. by apply (elem_of_Analyze c inj st msgs _ Hinj Hst Hrun).
Qed.

(** X9: nothing is reported exactly when every recorded proxy version
    equals every observed injector version: no record, no injector
    version, or one injector version that all recorded proxies run. *)
Theorem Analyze_silent_iff (c : Context) (inj : gset string) (st : PodScan)
    (msgs : list IstioProxyVersionMismatch) :
  scanNamespaces c = Some inj → scanPods c inj = Some st →
  Analyze c = Some msgs →
  msgs = [] ↔
    ∀ pv iv, pv ∈ podVersions st → iv ∈ injectorVersions st →
      ProxyVersion pv = iv.
Proof.
  intros Hinj Hst Hrun.
  pose proof (elem_of_Analyze c inj st msgs) as Hmem. split.
  - intros -> [r v] iv Hrec Hiv. simpl.
    destruct (decide (v = iv)) as [|Hne]; [done|].
    assert (NewIstioProxyVersionMismatch r v iv ∈ [])
      as []%elem_of_nil.
    by apply (Hmem _ Hinj Hst Hrun).
  - intros Hagree. destruct msgs as [|m msgs]; [done|].
    assert (m ∈ m :: msgs) as (Hiv & Hrec & Hne)%(Hmem _ Hinj Hst Hrun)
      by left.
    destruct Hne. apply (Hagree _ _ Hrec Hiv).
Qed.

Lemma length_mismatches_complement (pvs : list podVersion) (iv : string) :
  length (mismatches pvs iv)
  + length (filter (λ pv, ProxyVersion pv = iv) pvs)
  = length pvs.
Proof.
  unfold mismatches. rewrite length_fmap.
  induction pvs as [|pv pvs IH]; [done|].
  rewrite !filter_cons.
  destruct (decide (ProxyVersion pv = iv)) as [Heq|Hne].
  - rewrite decide_False by (by intros ?). simpl. lia.
  - rewrite decide_True by done. simpl. lia.
Qed.

Lemma length_filter_elem_of_cons (pvs : list podVersion) (iv : string)
    (ivs : list string) :
  iv ∉ ivs →
  length (filter (λ pv, ProxyVersion pv ∈ iv :: ivs) pvs)
  = length (filter (λ pv, ProxyVersion pv = iv) pvs)
    + length (filter (λ pv, ProxyVersion pv ∈ ivs) pvs).
Proof.
  intros Hiv. induction pvs as [|pv pvs IH]; [done|].
  rewrite !filter_cons.
  destruct (decide (ProxyVersion pv = iv)) as [Heq|Hne].
  - rewrite decide_True by (rewrite Heq; left).
    rewrite (decide_False (P := ProxyVersion pv ∈ ivs)) by (by rewrite Heq).
    simpl. lia.
  - destruct (decide (ProxyVersion pv ∈ ivs)) as [Hin|Hnotin].
    + rewrite decide_True by (by right). simpl. lia.
    + rewrite decide_False; [done|]. by intros [?|?]%elem_of_cons.
Qed.

Lemma length_crossJoin (ivs : list string) (pvs : list podVersion) :
  NoDup ivs →
  length (ivs ≫= mismatches pvs)
  + length (filter (λ pv, ProxyVersion pv ∈ ivs) pvs)
  = length ivs * length pvs.
Proof.
  induction 1 as [|iv ivs Hiv _ IH].
  - simpl. rewrite (filter_none (λ pv, ProxyVersion pv ∈ [])); [done|].
    by intros pv _ ?%elem_of_nil.
  - rewrite bind_cons, length_app, (length_filter_elem_of_cons _ _ _ Hiv).
    pose proof (length_mismatches_complement pvs iv). simpl. lia.
Qed.

(** X10: the number of messages is the number of injector versions times
    the number of entries of the record list, less one for every entry
    whose proxy version is one of the injector versions. *)
Theorem length_Analyze (c : Context) (inj : gset string) (st : PodScan)
    (msgs : list IstioProxyVersionMismatch) :
  scanNamespaces c = Some inj → scanPods c inj = Some st →
  Analyze c = Some msgs →
  length msgs
  + length (filter (λ pv, ProxyVersion pv ∈ injectorVersions st)
              (podVersions st))
  = size (injectorVersions st) * length (podVersions st).
Proof.
  intros Hinj Hst Hrun. rewrite (Analyze_eq c inj st msgs Hinj Hst Hrun).
  pose proof (length_crossJoin _ (podVersions st)
                (NoDup_rangeKeys (injectorVersions st))) as Hlen.
  rewrite (list_filter_iff
             (λ pv, ProxyVersion pv ∈ rangeKeys (injectorVersions st))
             (λ pv, ProxyVersion pv ∈ injectorVersions st)) in Hlen
    by (intros pv; apply elem_of_rangeKeys).
  assert (length (rangeKeys (injectorVersions st))
          = size (injectorVersions st)) as Hsize
    by (by rewrite rangeKeys_elements).
  by rewrite Hsize in Hlen.
Qed.

Lemma podRecords_no_proxy (inj : gset string) (r : Instance) (pod : Pod) :
  Payload r = PodMessage pod →
  Forall (λ ct, Name ct ≠ istioProxyName) (Containers pod) →
  podRecords inj r = [].
Proof.
  intros Hpod Hnone. unfold podRecords. rewrite Hpod.
  case_decide; [|done]. rewrite (filter_none proxyParseable); [done|].
  intros ct Hct [Hname _].
  by apply (proj1 (Forall_forall _ _) Hnone ct Hct).
Qed.

Lemma scanPods_ext (c c' : Context) (inj : gset string) :
  (Forall isPod (K8SCoreV1Pods c) ↔ Forall isPod (K8SCoreV1Pods c')) →
  K8SCoreV1Pods c ≫= podRecords inj = K8SCoreV1Pods c' ≫= podRecords inj →
  (∀ v, v ≠ "" →
     (∃ r, r ∈ K8SCoreV1Pods c ∧ podInjectorVersion r = v)
     ↔ (∃ r, r ∈ K8SCoreV1Pods c' ∧ podInjectorVersion r = v)) →
  scanPods c inj = scanPods c' inj.
Proof.
  intros Hall Hpvs Hivs.
  destruct (scanPods c inj) as [[ivs pvs]|] eqn:Hst,
    (scanPods c' inj) as [[ivs' pvs']|] eqn:Hst'.
  - apply scanPods_Some in Hst as (_ & Hp & Hi).
    apply scanPods_Some in Hst' as (_ & Hp' & Hi'). simpl in *.
    f_equal. f_equal; [|congruence].
    apply set_eq. intros v. rewrite Hi, Hi'.
    split; intros [Hne Hv]; (split; [done|]); by apply (Hivs v Hne).
  - apply scanPods_Some in Hst as (Hpods%Hall & _).
    destruct (ForEach_visitPod_total inj _ (mkPodScan ∅ []) Hpods)
      as [st Hsome].
    unfold scanPods in Hst'. congruence.
  - apply scanPods_Some in Hst' as (Hpods%Hall & _).
    destruct (ForEach_visitPod_total inj _ (mkPodScan ∅ []) Hpods)
      as [st Hsome].
    unfold scanPods in Hst. congruence.
  - done.
Qed.

(** X11: a further pod that has no container named like the proxy and
    announces the injector version of a pod already in the collection, an
    injector replica, leaves the result as it is, wherever it stands in
    the collection. *)
Theorem injector_replica_changes_nothing (nss before after : list Instance)
    (r r0 : Instance) (pod pod0 : Pod) :
  Payload r = PodMessage pod →
  Forall (λ ct, Name ct ≠ istioProxyName) (Containers pod) →
  r0 ∈ before ++ after → Payload r0 = PodMessage pod0 →
  tryReturnSidecarInjectorVersion pod0
  = tryReturnSidecarInjectorVersion pod →
  Analyze (mkContext nss (before ++ r :: after))
  = Analyze (mkContext nss (before ++ after)).
Proof.
  intros Hpod Hnone Hr0 Hpod0 Hsame.
  assert (∀ inj,
            scanPods (mkContext nss (before ++ r :: after)) inj
            = scanPods (mkContext nss (before ++ after)) inj) as Hscan.
  { intros inj. apply scanPods_ext; simpl.
    - rewrite !Forall_app, Forall_cons.
      split; [by intros (? & _ & ?)|]. intros [? ?].
      split_and!; [done|by exists pod|done].
    - rewrite !bind_app, bind_cons.
      by rewrite (podRecords_no_proxy inj r pod Hpod Hnone).
    - intros v _. split.
      + intros (r' & Hr' & Hv).
        apply elem_of_app in Hr' as [Hr'|[->|Hr']%elem_of_cons].
        * exists r'. split; [apply elem_of_app; by left|done].
        * exists r0. split; [done|]. unfold podInjectorVersion in *.
          rewrite Hpod0. rewrite Hpod in Hv. congruence.
        * exists r'. split; [apply elem_of_app; by right|done].
      + intros (r' & Hr' & Hv). exists r'. split; [|done].
        apply elem_of_app in Hr' as [Hr'|Hr']; apply elem_of_app;
          [by left|right; by right]. }
  unfold Analyze.
  change (scanNamespaces (mkContext nss (before ++ r :: after)))
    with (scanNamespaces (mkContext nss (before ++ after))).
  destruct (scanNamespaces (mkContext nss (before ++ after))) as [inj|];
    simpl; [|done].
  by rewrite Hscan.
Qed.

(** ** Declared inputs *)

(** X12: the analyzer keeps to the inputs its [Metadata] declares: its
    result is the same on any two contexts that hold the same resources
    under the declared names, and every message is reported under a
    declared name, that of the pod collection. *)
Theorem Analyze_within_declared_inputs
    (collections collections' : string → list Instance) :
  (∀ name, name ∈ Inputs VersionAnalyzer_Metadata →
     collections name = collections' name) →
  AnalyzeNamed collections = AnalyzeNamed collections'
  ∧ ∀ reports name m, AnalyzeNamed collections = Some reports →
      (name, m) ∈ reports →
      name = K8SCoreV1PodsName ∧ name ∈ Inputs VersionAnalyzer_Metadata.
Proof.
  intros Hsame. split.
  - unfold AnalyzeNamed.
    rewrite <- (Hsame K8SCoreV1NamespacesName) by (simpl; left).
    by rewrite <- (Hsame K8SCoreV1PodsName) by (simpl; right; left).
  - intros reports name m. unfold AnalyzeNamed.
    destruct (Analyze _) as [msgs|]; simpl; [|done].
    intros [= <-] (m' & [= -> ->] & _)%list_elem_of_fmap.
    split; [done|]. simpl. right. left.
Qed.

End Analyzer.

(** C8: two invocations on the same snapshot, whatever the order in which
    each visits the two collections and ranges over the version set,
    either both panic or report the same messages up to order: the same
    set of (pod, proxy version, injector version) triples, each as often. *)
Theorem Analyze_order_independent
    (InjectionLabelName InjectionLabelEnableValue istioProxyName : string)
    (rangeKeys rangeKeys' : gset string → list string) (c c' : Context) :
  (∀ s, rangeKeys s ≡ₚ elements s) →
  (∀ s, rangeKeys' s ≡ₚ elements s) →
  K8SCoreV1Namespaces c ≡ₚ K8SCoreV1Namespaces c' →
  K8SCoreV1Pods c ≡ₚ K8SCoreV1Pods c' →
  (is_Some (Analyze InjectionLabelName InjectionLabelEnableValue
              istioProxyName rangeKeys c)
   ↔ is_Some (Analyze InjectionLabelName InjectionLabelEnableValue
                istioProxyName rangeKeys' c'))
  ∧ ∀ msgs msgs',
      Analyze InjectionLabelName InjectionLabelEnableValue istioProxyName
        rangeKeys c = Some msgs →
      Analyze InjectionLabelName InjectionLabelEnableValue istioProxyName
        rangeKeys' c' = Some msgs' →
      msgs ≡ₚ msgs' ∧ ∀ m, m ∈ msgs ↔ m ∈ msgs'.
Proof.
  intros Hrange Hrange' Hnss Hpods. split.
  - split; intros [msgs Hrun]; apply Analyze_Some_pods in Hrun;
      apply Analyze_total; [by rewrite <- Hpods|by rewrite Hpods].
  - intros msgs msgs' (inj & st & Hinj & Hst & ->)%Analyze_Some
      (inj' & st' & Hinj' & Hst' & ->)%Analyze_Some.
    pose proof (scanNamespaces_Permutation _ _ c c' inj inj' Hnss Hinj Hinj')
      as <-.
    destruct (scanPods_Permutation _ c c' inj st st' Hpods Hst Hst')
      as [Hivs Hpvs].
    assert (rangeKeys (injectorVersions st)
              ≫= mismatches (podVersions st)
            ≡ₚ rangeKeys' (injectorVersions st')
              ≫= mismatches (podVersions st')) as Hperm.
    { apply crossJoin_Permutation; [|done].
      by rewrite Hrange, Hrange', Hivs. }
    split; [done|]. intros m. by rewrite Hperm.
Qed.

(** ** The analyzer on the sample snapshots

    The constants of package [injection] at the values the cluster
    convention gives them, and the key order of [elements]. *)

Local Abbreviation run :=
  (Analyze "istio-injection" "enabled" "istio-proxy" elements).

Local Abbreviation run_scanNamespaces :=
  (scanNamespaces "istio-injection" "enabled").

Local Abbreviation run_scanPods := (scanPods "istio-proxy").

Import Samples.

Example run_rollout : run rollout = Some rollout_messages.
Proof. vm_compute. reflexivity. Qed.

Example run_rollout_scan :
  run_scanNamespaces rollout = Some {[ "default" ]}
  ∧ run_scanPods rollout {[ "default" ]} = Some rollout_scan.
Proof. split; vm_compute; reflexivity. Qed.

Example run_rollout_reversed :
  Analyze "istio-injection" "enabled" "istio-proxy"
    (λ s, reverse (elements s)) rollout_reversed
  = Some rollout_reversed_messages.
Proof. vm_compute. reflexivity. Qed.

Example run_skipped : run skipped = Some skipped_messages.
Proof. vm_compute. reflexivity. Qed.

Example run_orphaned : run orphaned = Some [].
Proof. vm_compute. reflexivity. Qed.

Example run_twins : run twins = Some twins_messages.
Proof. vm_compute. reflexivity. Qed.

Example run_halves :
  run halves = Some [NewIstioProxyVersionMismatch half_tagged "1.1.0" "1.2.0"].
Proof. vm_compute. reflexivity. Qed.

Example run_meshed :
  run_scanNamespaces meshed = Some {[ "default" ]}
  ∧ run_scanPods meshed {[ "default" ]} = Some meshed_scan
  ∧ run meshed = Some meshed_messages.
Proof. split_and!; vm_compute; reflexivity. Qed.

Example run_misfiled : run misfiled = None.
Proof. vm_compute. reflexivity. Qed.

Lemma elements_range (s : gset string) : elements s ≡ₚ elements s.
Proof. reflexivity. Qed.

Lemma NoDup_rollout : NoDup (K8SCoreV1Pods rollout).
Proof.
  apply (bool_decide_unpack (NoDup (K8SCoreV1Pods rollout))).
  vm_compute. exact I.
Qed.

Lemma cross_join_multiplicity_witness :
  messagesOf cur rollout_messages
  = [NewIstioProxyVersionMismatch cur "1.2.0" "1.3.0"]
  ∧ length (messagesOf old rollout_messages) = 2
  ∧ occurrences (NewIstioProxyVersionMismatch old "1.1.0" "1.3.0")
      rollout_messages = 1
  ∧ occurrences (NewIstioProxyVersionMismatch cur "1.2.0" "1.2.0")
      rollout_messages = 0.
Proof.
  destruct (cross_join_multiplicity "istio-injection" "enabled"
              "istio-proxy" elements elements_range rollout {[ "default" ]}
              rollout_scan rollout_messages)
    as (_ & Honce); [vm_compute; reflexivity..|].
  specialize (Honce NoDup_rollout).
  destruct (Honce cur (podOf cur) "1.2.0") as (Hnone & _ & _ & _ & Hcur);
    [reflexivity|vm_compute; lia|right; left|].
  destruct (Honce old (podOf old) "1.1.0") as (_ & Hone & _ & _ & Hold);
    [reflexivity|vm_compute; lia|left|].
  split_and!.
  - by apply Hcur.
  - by apply Hold.
  - apply Hone; [vm_compute; reflexivity|discriminate].
  - apply Hnone.
Defined.

(** C1, as stated, fails: each resource of [doubled] is visited once, the
    pod [double] is recorded with proxy version 1.1.0, and the message
    [(double, 1.1.0, 1.2.0)] is reported twice, so that the pod yields two
    findings against the only injector version. *)
Lemma triple_reported_twice :
  NoDup (K8SCoreV1Pods doubled)
  ∧ run_scanNamespaces doubled = Some {[ "default" ]}
  ∧ run_scanPods doubled {[ "default" ]} = Some doubled_scan
  ∧ run doubled = Some doubled_messages
  ∧ mkPodVersion double "1.1.0" ∈ podVersions doubled_scan
  ∧ injectorVersions doubled_scan = {[ "1.2.0" ]}
  ∧ occurrences (NewIstioProxyVersionMismatch double "1.1.0" "1.2.0")
      doubled_messages = 2
  ∧ length (messagesOf double doubled_messages) = 2.
Proof.
  split_and!; try (vm_compute; reflexivity).
  - apply (bool_decide_unpack (NoDup (K8SCoreV1Pods doubled))).
    vm_compute. exact I.
  - left.
Qed.

Lemma disabled_namespace_unreported_witness :
  run skipped = Some skipped_messages
  ∧ ∀ m pod, m ∈ skipped_messages →
      Payload (mResource m) = PodMessage pod → Namespace pod ≠ "legacy".
Proof.
  split; [vm_compute; reflexivity|].
  apply (disabled_namespace_unreported "istio-injection" "enabled"
           "istio-proxy" elements skipped).
  - discriminate.
  - vm_compute. reflexivity.
  - apply (proj1 (Forall_forall
                    (λ ns, FullName (Meta ns) = "legacy" →
                           MetaLabels (Meta ns) !! "istio-injection"
                           ≠ Some "enabled")
                    (K8SCoreV1Namespaces skipped))).
    repeat constructor; vm_compute; congruence.
Defined.

Lemma overridden_pod_unreported_witness :
  run skipped = Some skipped_messages
  ∧ ∀ m, m ∈ skipped_messages → mResource m ≠ pinned.
Proof.
  split; [vm_compute; reflexivity|].
  apply (overridden_pod_unreported "istio-injection" "enabled"
           "istio-proxy" elements skipped skipped_messages pinned
           "custom/proxy:9").
  - vm_compute. reflexivity.
  - vm_compute. reflexivity.
  - discriminate.
Defined.

(** C4: the analyzer on [halves].  The first container of [half_tagged]
    named like the proxy has an image with no colon and parses to the
    empty version; the container loop goes on to the next container
    instead of leaving the pod, so the pod is recorded with the version of
    its second such container, compared and reported.  The injector loop,
    on a pod with the same two images, returns the empty version. *)
Theorem untagged_proxy_container_not_skipped :
  Containers (podOf half_tagged)
  = [proxy "istio/proxyv2"; proxy "istio/proxyv2:1.1.0"]
  ∧ Count (Image (proxy "istio/proxyv2")) = 0
  ∧ getContainerNameVersion (proxy "istio/proxyv2") = ""
  ∧ run_scanNamespaces halves = Some {[ "default" ]}
  ∧ run_scanPods halves {[ "default" ]} = Some halves_scan
  ∧ mkPodVersion half_tagged "1.1.0" ∈ podVersions halves_scan
  ∧ run halves
    = Some [NewIstioProxyVersionMismatch half_tagged "1.1.0" "1.2.0"]
  ∧ tryReturnSidecarInjectorVersion half_webhooks = "".
Proof.
  split_and!; try (vm_compute; reflexivity). left.
Qed.

Lemma unknown_version_excluded_witness :
  getContainerNameVersion (proxy "registry:5000/istio/proxyv2:1.0.0") = ""
  ∧ getContainerNameVersion (proxy "istio/proxyv2") = ""
  ∧ (∃ ivs, visitPod "istio-proxy" {[ "default" ]} ported rollout_scan
            = Some (mkPodScan ivs (podVersions rollout_scan), true))
  ∧ ∀ m, m ∈ skipped_messages →
      mResource m ≠ ported ∧ mResource m ≠ untagged
      ∧ mProxyVersion m ≠ "" ∧ mInjectionVersion m ≠ "".
Proof.
  destruct (unknown_version_excluded "istio-injection" "enabled"
              "istio-proxy" elements elements_range)
    as (Hparse & Hpod & _ & _ & Hmsg).
  assert (getContainerNameVersion
            (proxy "registry:5000/istio/proxyv2:1.0.0") = "") as Hported
    by (apply Hparse; right; vm_compute; lia).
  assert (getContainerNameVersion (proxy "istio/proxyv2") = "") as Huntagged
    by (apply Hparse; left; vm_compute; reflexivity).
  split_and!; [done..| |].
  - apply (Hpod _ ported (podOf ported)); [reflexivity|].
    by intros ct [->|[]%elem_of_nil]%elem_of_cons _.
  - intros m Hm.
    destruct (Hmsg skipped skipped_messages m) as (Hpv & Hiv & Hct);
      [vm_compute; reflexivity|done|].
    split_and!; [| |done..].
    + intros Hr. rewrite Hr in Hct.
      destruct (Hct _ eq_refl) as (ct & [->|[]%elem_of_nil]%elem_of_cons
                                      & _ & Hv).
      congruence.
    + intros Hr. rewrite Hr in Hct.
      destruct (Hct _ eq_refl) as (ct & [->|[]%elem_of_nil]%elem_of_cons
                                      & _ & Hv).
      congruence.
Defined.

Lemma no_injector_no_message_witness :
  run orphaned = Some []
  ∧ ∀ msgs, run orphaned = Some msgs → msgs = [].
Proof.
  split; [vm_compute; reflexivity|]. intros msgs.
  apply (no_injector_no_message "istio-injection" "enabled" "istio-proxy"
           elements elements_range orphaned msgs).
  intros r pod v Hr Hpod [Happ _].
  apply elem_of_cons in Hr as [->|Hr];
    [|apply elem_of_cons in Hr as [->|[]%elem_of_nil]];
    injection Hpod as <-; vm_compute in Happ; discriminate.
Defined.

Lemma NoDup_twins : NoDup (K8SCoreV1Pods twins).
Proof.
  apply (bool_decide_unpack (NoDup (K8SCoreV1Pods twins))).
  vm_compute. exact I.
Qed.

Lemma pair_reported_at_most_once_witness :
  length (messagesOfPair old "1.2.0" rollout_messages) ≤ 1
  ∧ length (messagesOfPair old "1.3.0" rollout_messages) ≤ 1.
Proof.
  split;
    (apply (pair_reported_at_most_once "istio-injection" "enabled"
              "istio-proxy" elements elements_range rollout rollout_messages
              old (podOf old));
     [apply NoDup_rollout|vm_compute; reflexivity|reflexivity
     |vm_compute; lia]).
Defined.

(** C6, as stated, fails: each resource of [twins] is visited once, and
    the pod [twin], with two containers named like the proxy, is reported
    twice against the injector version 1.2.0. *)
Lemma pair_reported_twice :
  NoDup (K8SCoreV1Pods twins)
  ∧ run twins = Some twins_messages
  ∧ messagesOfPair twin "1.2.0" twins_messages = twins_messages
  ∧ ¬ length (messagesOfPair twin "1.2.0" twins_messages) ≤ 1.
Proof.
  split_and!.
  - apply NoDup_twins.
  - vm_compute. reflexivity.
  - vm_compute. reflexivity.
  - vm_compute. lia.
Qed.

Lemma announcesInjector_inj12 : announcesInjector (podOf inj12) "1.2.0".
Proof.
  split; [vm_compute; reflexivity|].
  exists (mkContainer "sidecar-injector-webhook"
            "istio/sidecar_injector:1.2.0").
  split_and!; [vm_compute; reflexivity..|discriminate].
Qed.

Lemma injector_detection_unconditional_witness :
  (Namespace (podOf inj12) ∉ ({[ "default" ]} : gset string))
  ∧ "1.2.0" ∈ injectorVersions rollout_scan
  ∧ NewIstioProxyVersionMismatch old "1.1.0" "1.2.0" ∈ rollout_messages.
Proof.
  destruct (injector_detection_unconditional "istio-injection" "enabled"
              "istio-proxy" elements elements_range rollout {[ "default" ]}
              rollout_scan inj12 (podOf inj12) "1.2.0")
    as (Hin & _ & Hmsg);
    [vm_compute; reflexivity..|left|reflexivity
    |apply announcesInjector_inj12|].
  split_and!.
  - by intros [=]%elem_of_singleton.
  - apply Hin.
  - apply (Hmsg rollout_messages (mkPodVersion old "1.1.0"));
      [vm_compute; reflexivity|left|discriminate].
Defined.

Lemma reversed_range (s : gset string) : reverse (elements s) ≡ₚ elements s.
Proof. apply reverse_Permutation. Qed.

Lemma Analyze_order_independent_witness :
  run rollout = Some rollout_messages
  ∧ Analyze "istio-injection" "enabled" "istio-proxy"
      (λ s, reverse (elements s)) rollout_reversed
    = Some rollout_reversed_messages
  ∧ rollout_messages ≠ rollout_reversed_messages
  ∧ rollout_messages ≡ₚ rollout_reversed_messages.
Proof.
  split_and!; [vm_compute; reflexivity..|discriminate|].
  destruct (Analyze_order_independent "istio-injection" "enabled"
              "istio-proxy" elements (λ s, reverse (elements s))
              rollout rollout_reversed elements_range reversed_range)
    as [_ Hsame].
  - symmetry. apply reverse_Permutation.
  - symmetry. apply reverse_Permutation.
  - apply (Hsame rollout_messages rollout_reversed_messages);
      vm_compute; reflexivity.
Defined.

Lemma conforming_rollout : conforming rollout.
Proof.
  split; repeat constructor; by eexists.
Qed.

Lemma Analyze_total_on_conforming_witness :
  conforming rollout
  ∧ (∃ msgs, run rollout = Some msgs)
  ∧ ∃ st', visitPod "istio-proxy" {[ "default" ]} cur rollout_scan
           = Some (st', true).
Proof.
  destruct (Analyze_total_on_conforming "istio-injection" "enabled"
              "istio-proxy" elements rollout conforming_rollout)
    as (Hrun & _ & Hpod).
  split_and!; [apply conforming_rollout|done|].
  apply Hpod. vm_compute. repeat constructor.
Defined.

Lemma injector_pod_checked_as_workload_witness :
  mkPodVersion meshed_injector "1.2.0" ∈ podVersions meshed_scan
  ∧ NewIstioProxyVersionMismatch meshed_injector "1.2.0" "1.3.0"
      ∈ meshed_messages.
Proof.
  destruct (injector_pod_checked_as_workload "istio-injection" "enabled"
              "istio-proxy" elements elements_range meshed {[ "default" ]}
              meshed_scan meshed_messages meshed_injector
              (ns "default" enabled) (podOf meshed_injector)
              (proxy "istio/proxyv2:1.2.0") "1.2.0")
    as [Hrec Hmsg]; try (vm_compute; reflexivity).
  - left.
  - left.
  - intros image Himage. vm_compute in Himage. discriminate.
  - right. left.
  - discriminate.
  - split; [done|]. apply Hmsg; [vm_compute; reflexivity|discriminate].
Defined.

(** ** The further properties on the sample snapshots *)

Lemma tryReturnSidecarInjectorVersion_first_witness :
  tryReturnSidecarInjectorVersion two_webhooks = "1.2.0".
Proof.
  apply (tryReturnSidecarInjectorVersion_first two_webhooks
           [mkContainer "metrics" "prom/exporter:0.9"]
           [mkContainer "sidecar-injector-webhook"
              "istio/sidecar_injector:1.3.0"]
           (mkContainer "sidecar-injector-webhook"
              "istio/sidecar_injector:1.2.0")).
  - vm_compute. reflexivity.
  - reflexivity.
  - repeat constructor. discriminate.
  - reflexivity.
Defined.

Lemma tryReturnSidecarInjectorVersion_empty_witness :
  tryReturnSidecarInjectorVersion (podOf old) = ""
  ∧ tryReturnSidecarInjectorVersion
      (mkPod "istio-system" {[ "app" := "sidecarInjectorWebhook" ]}
         [proxy "istio/proxyv2:1.2.0"]) = "".
Proof.
  split; apply tryReturnSidecarInjectorVersion_empty.
  - left. vm_compute. discriminate.
  - right. repeat constructor. discriminate.
Defined.

Lemma message_reported_iff_witness :
  NewIstioProxyVersionMismatch old "1.1.0" "1.3.0" ∈ rollout_messages.
Proof.
  apply (message_reported_iff "istio-injection" "enabled" "istio-proxy"
           elements elements_range rollout rollout_messages);
    [vm_compute; reflexivity|].
  simpl. split_and!.
  - discriminate.
  - exists inj13, (podOf inj13). split_and!; [by right; left|reflexivity|].
    split; [vm_compute; reflexivity|].
    exists (mkContainer "sidecar-injector-webhook"
              "istio/sidecar_injector:1.3.0").
    split_and!; [vm_compute; reflexivity..|discriminate].
  - right. right. left.
  - vm_compute. reflexivity.
  - exists (podOf old), (ns "default" enabled), (proxy "istio/proxyv2:1.1.0").
    split_and!; [reflexivity|left|reflexivity|vm_compute; reflexivity
                |right; left|reflexivity|vm_compute; reflexivity
                |discriminate].
Defined.

Lemma Analyze_enabled_names_only_witness :
  run (mkContext [ns "default" enabled; ns "istio-system" ∅]
         (K8SCoreV1Pods rollout))
  = run (mkContext [posing; posing] (K8SCoreV1Pods rollout)).
Proof.
  apply (Analyze_enabled_names_only "istio-injection" "enabled"
           "istio-proxy" elements).
  intros N. split.
  - intros (r & [->|[->|[]%elem_of_nil]%elem_of_cons]%elem_of_cons
              & HN & Hen).
    + exists posing. split_and!; [left|done|vm_compute; reflexivity].
    + vm_compute in Hen. discriminate.
  - intros (r & [->|[->|[]%elem_of_nil]%elem_of_cons]%elem_of_cons
              & HN & Hen);
      exists (ns "default" enabled);
      (split_and!; [left|done|vm_compute; reflexivity]).
Defined.

Example run_early : run early = Some skipped_messages.
Proof. vm_compute. reflexivity. Qed.

Lemma Analyze_monotone_witness :
  run early = Some skipped_messages
  ∧ run rollout = Some rollout_messages
  ∧ ∀ m, m ∈ skipped_messages → m ∈ rollout_messages.
Proof.
  split_and!; [vm_compute; reflexivity..|].
  apply (Analyze_monotone "istio-injection" "enabled" "istio-proxy"
           elements elements_range early rollout).
  - intros r [->|[]%elem_of_nil]%elem_of_cons. left.
  - intros r [->|[->|[]%elem_of_nil]%elem_of_cons]%elem_of_cons;
      [left|right; right; left].
  - vm_compute. reflexivity.
  - vm_compute. reflexivity.
Defined.

Lemma two_injector_versions_report_every_record_witness :
  ∃ iv, NewIstioProxyVersionMismatch cur "1.2.0" iv ∈ rollout_messages.
Proof.
  assert (run_scanNamespaces rollout = Some {[ "default" ]}) as Hinj
    by (vm_compute; reflexivity).
  assert (run_scanPods rollout {[ "default" ]} = Some rollout_scan) as Hst
    by (vm_compute; reflexivity).
  assert (run rollout = Some rollout_messages) as Hrun
    by (vm_compute; reflexivity).
  assert ("1.2.0" ∈ injectorVersions rollout_scan) as H12
    by (vm_compute; reflexivity).
  assert ("1.3.0" ∈ injectorVersions rollout_scan) as H13
    by (vm_compute; reflexivity).
  assert (mkPodVersion cur "1.2.0" ∈ podVersions rollout_scan) as Hrec
    by (right; left).
  exact (two_injector_versions_report_every_record "istio-injection"
           "enabled" "istio-proxy" elements elements_range rollout _ _ _
           "1.2.0" "1.3.0" Hinj Hst Hrun H12 H13 ltac:(discriminate)
           (mkPodVersion cur "1.2.0") Hrec).
Defined.

Example run_settled :
  run_scanNamespaces settled = Some {[ "default" ]}
  ∧ run_scanPods settled {[ "default" ]} = Some settled_scan
  ∧ run settled = Some [].
Proof. split_and!; vm_compute; reflexivity. Qed.

Lemma Analyze_silent_iff_witness :
  run settled = Some []
  ∧ ∀ pv iv, pv ∈ podVersions settled_scan →
      iv ∈ injectorVersions settled_scan → ProxyVersion pv = iv.
Proof.
  assert (run_scanNamespaces settled = Some {[ "default" ]}) as Hinj
    by (vm_compute; reflexivity).
  assert (run_scanPods settled {[ "default" ]} = Some settled_scan) as Hst
    by (vm_compute; reflexivity).
  assert (run settled = Some []) as Hrun by (vm_compute; reflexivity).
  split; [done|].
  by apply (Analyze_silent_iff "istio-injection" "enabled" "istio-proxy"
              elements elements_range settled _ _ _ Hinj Hst Hrun).
Defined.

Lemma length_Analyze_witness :
  length rollout_messages
  + length (filter (λ pv, ProxyVersion pv ∈ injectorVersions rollout_scan)
              (podVersions rollout_scan))
  = size (injectorVersions rollout_scan) * length (podVersions rollout_scan).
Proof.
  apply (length_Analyze "istio-injection" "enabled" "istio-proxy" elements
           elements_range rollout {[ "default" ]});
    vm_compute; reflexivity.
Defined.

Lemma injector_replica_changes_nothing_witness :
  run (mkContext (K8SCoreV1Namespaces rollout)
         ([old; inj12] ++ replica :: [inj13; cur]))
  = run (mkContext (K8SCoreV1Namespaces rollout)
           ([old; inj12] ++ [inj13; cur])).
Proof.
  apply (injector_replica_changes_nothing "istio-injection" "enabled"
           "istio-proxy" elements _ _ _ replica inj12 (podOf replica)
           (podOf inj12)).
  - reflexivity.
  - repeat constructor. discriminate.
  - right. left.
  - reflexivity.
  - vm_compute. reflexivity.
Defined.

Lemma Analyze_within_declared_inputs_witness :
  named "k8s/apps/v1/deployments" ≠ named_more "k8s/apps/v1/deployments"
  ∧ AnalyzeNamed "istio-injection" "enabled" "istio-proxy" elements
      "k8s/core/v1/namespaces" "k8s/core/v1/pods" named
    = AnalyzeNamed "istio-injection" "enabled" "istio-proxy" elements
        "k8s/core/v1/namespaces" "k8s/core/v1/pods" named_more.
Proof.
  split; [vm_compute; discriminate|].
  apply (Analyze_within_declared_inputs "istio-injection" "enabled"
           "istio-proxy" elements "k8s/core/v1/namespaces"
           "k8s/core/v1/pods" named named_more).
  intros name [->|[->|[]%elem_of_nil]%elem_of_cons]%elem_of_cons;
    vm_compute; reflexivity.
Defined.
